(** * Ticket reservation system: booking service, lock helper and payment worker

    A shallow embedding of the booking service
    ([booking-service/src/app.js]), of its Redis lock helpers and of the
    payment worker ([processPayment] of the payment service), together with
    the schema of [database/init-db.sql].  The writing routes of the event
    service, the manual payment route of the payment service and the
    reservation route of the simplified booking service follow, on the same
    database and key space.

    Conventions of the embedding.
    - Time is an integer number of milliseconds.  Every reading of a clock
      ([new Date()], [Date.now()], SQL [NOW()]) is an explicit argument of the
      operation that reads it; two statements of one handler read the clock
      twice and therefore take two arguments.
    - Integer columns and JSON integers are [Z]; [DECIMAL(10,2)] amounts are
      [Z] as well (an amount in cents).  Fields of a JSON request body that
      the handlers test for truthiness are [jsval]s: absent, [null] or an
      integer.
    - Tables are lists of rows in insertion order; a [SELECT] is a [filter]
      or a [find], an [UPDATE ... WHERE] is a [map] that rewrites the rows
      matching the condition.  A transaction that is rolled back returns the
      database it started from.
    - The Redis key space is a [gmap] from keys to a value and its expiry.
    - Queue publications of the booking service happen after the commit and
      never touch the database; they are left out.  The [updated_at] and
      [created_at] columns are left out too.
    - A statement that violates the schema (a foreign key without target, a
      booking reference that is not unique) fails and the handler answers
      500 after a rollback.  Failures of the infrastructure (a lost
      connection, a Redis or queue error) and the range of [INT] are not
      modelled. *)

From Stdlib Require Import ZArith Lia List Bool.
From stdpp Require Import base option gmap strings list pretty.
Import ListNotations.

#[local] Open Scope Z_scope.

(** ** JavaScript values of a request body *)

Module Js.

Inductive jsval : Type :=
| JUndefined
| JNull
| JNum (n : Z).

(** [!v] is [negb (truthy v)]. *)
Definition truthy (v : jsval) : bool :=
  match v with
  | JUndefined | JNull => false
  | JNum n => negb (n =? 0)
  end.

(** [ToNumber]; [None] stands for [NaN]. *)
Definition to_number (v : jsval) : option Z :=
  match v with
  | JUndefined => None
  | JNull => Some 0
  | JNum n => Some n
  end.

(** [v <= k] and [v > k] for a numeric literal [k]: a comparison with [NaN]
    is false. *)
Definition le_num (v : jsval) (k : Z) : bool :=
  match to_number v with Some n => n <=? k | None => false end.

Definition gt_num (v : jsval) (k : Z) : bool :=
  match to_number v with Some n => k <? n | None => false end.

Definition lt_num (v : jsval) (k : Z) : bool :=
  match to_number v with Some n => n <? k | None => false end.

(** Interpolation of a value in a template literal. *)
Definition to_string (v : jsval) : string :=
  match v with
  | JUndefined => "undefined"
  | JNull => "null"
  | JNum n => pretty n
  end.

(** [a || b] *)
Definition or_else (a b : jsval) : jsval := if truthy a then a else b.

(** A string is truthy unless it is empty. *)
Definition truthy_string (s : string) : bool :=
  match s with EmptyString => false | String _ _ => true end.

End Js.

(** ** The distributed lock helpers *)

Module Lock.

(** A Redis string key: its value and the instant at which it expires. *)
Record entry : Type := { value : string; expires : Z }.

Abbreviation store := (gmap string entry).

(** [GET key] at time [now]: an expired key does not exist. *)
Definition get (now : Z) (s : store) (key : string) : option string :=
  match s !! key with
  | Some e => if now <? expires e then Some (value e) else None
  | None => None
  end.

(** [SET key value PX ms NX]: ["OK"] ([true]) when the key did not exist. *)
Definition set_px_nx (now : Z) (key val : string) (ms : Z) (s : store)
  : bool * store :=
  match get now s key with
  | Some _ => (false, s)
  | None => (true, <[key := {| value := val; expires := now + ms |}]> s)
  end.

(** [acquireLock(key, ttl)]; [lockValue] is the fresh [uuidv4()]. *)
Definition acquireLock (now : Z) (lockValue : string) (key : string) (ttl : Z)
    (s : store) : option string * store :=
  let '(ok, s') := set_px_nx now key lockValue (ttl * 1000) s in
  (if ok then Some lockValue else None, s').

(** The Lua script of [releaseLock], run on the keys and the arguments
    that the [EVAL] command carries.  Without a first key
    [redis.call("get", KEYS[1])] raises and the script fails ([None]);
    otherwise the script returns the number of keys it deleted, with the key
    space after it.  A missing [ARGV[1]] is [nil] and equals no value. *)
Definition release_script (now : Z) (keys argv : list string) (s : store)
  : option (Z * store) :=
  match keys with
  | [] => None
  | key :: _ =>
    match argv with
    | arg :: _ =>
      if decide (get now s key = Some arg)
      then Some (1, delete key s)
      else Some (0, s)
    | [] => Some (0, s)
    end
  end.

(** The second argument of [redisClient.eval]: an object with [keys] and
    [arguments], or a value without these properties, such as a number. *)
Inductive eval_options : Type :=
| EvalObject (keys arguments : list string)
| EvalNumber (n : Z).

(** [redisClient.eval(script, options, ...more)] of the client that
    [redis.createClient({ socket })] and [connect()] set up: the command
    sent is [EVAL script numkeys key... arg...] with the keys and the
    arguments of [options], and [EVAL script 0] when [options] has none.
    What follows [options] in the call is not read. *)
Definition eval (now : Z) (options : eval_options) (more : list string)
    (s : store) : option (Z * store) :=
  match options with
  | EvalObject keys arguments => release_script now keys arguments s
  | EvalNumber _ => release_script now [] [] s
  end.

(** [releaseLock(key, lockValue)]:
    [await redisClient.eval(script, 1, key, lockValue)] in a [try] whose
    [catch] logs the error and goes on. *)
Definition releaseLock (now : Z) (key lockValue : string) (s : store) : store :=
  match eval now (EvalNumber 1) [key; lockValue] s with
  | Some (_, s') => s'
  | None => s
  end.

End Lock.

(** ** The relational store *)

Module Db.

Inductive event_status : Type := Active | Inactive | EventCancelled.
Inductive booking_status : Type := Pending | Confirmed | Cancelled | Expired.
Inductive payment_status : Type := PayPending | Completed | Failed | Refunded.
Inductive payment_method : Type := credit_card | debit_card | paypal | bank_transfer.

#[global] Instance event_status_eq_dec : EqDecision event_status.
Proof. solve_decision. Defined.
#[global] Instance booking_status_eq_dec : EqDecision booking_status.
Proof. solve_decision. Defined.
#[global] Instance payment_status_eq_dec : EqDecision payment_status.
Proof. solve_decision. Defined.
#[global] Instance payment_method_eq_dec : EqDecision payment_method.
Proof. solve_decision. Defined.

(** Rows of [events], [bookings] and [payments]; the descriptive columns
    ([title], [description], [venue]) play no part in any handler below. *)
Record event : Type := Event {
  ev_id : Z;
  ev_event_date : Z;
  ev_total_tickets : Z;
  ev_available_tickets : Z;
  ev_price : Z;
  ev_status : event_status
}.

Record booking : Type := Booking {
  bk_id : Z;
  bk_user_id : Z;
  bk_event_id : Z;
  bk_ticket_count : Z;
  bk_total_amount : Z;
  bk_status : booking_status;
  bk_booking_reference : string;
  bk_payment_status : payment_status;
  bk_expires_at : Z
}.

Record payment : Type := Payment {
  pay_id : Z;
  pay_booking_id : Z;
  pay_amount : Z;
  pay_payment_method : payment_method;
  pay_payment_gateway_id : string;
  pay_status : payment_status
}.

(** The database: the ids of the [users] table, the three tables the
    booking service writes, and the two [AUTO_INCREMENT] counters. *)
Record db : Type := Database {
  users : list Z;
  events : list event;
  bookings : list booking;
  payments : list payment;
  next_booking_id : Z;
  next_payment_id : Z
}.

Definition with_events (es : list event) (d : db) : db :=
  Database (users d) es (bookings d) (payments d)
           (next_booking_id d) (next_payment_id d).

Definition with_bookings (bs : list booking) (d : db) : db :=
  Database (users d) (events d) bs (payments d)
           (next_booking_id d) (next_payment_id d).

Definition set_status (st : booking_status) (b : booking) : booking :=
  Booking (bk_id b) (bk_user_id b) (bk_event_id b) (bk_ticket_count b)
          (bk_total_amount b) st (bk_booking_reference b)
          (bk_payment_status b) (bk_expires_at b).

Definition set_status_and_payment (st : booking_status) (ps : payment_status)
    (b : booking) : booking :=
  Booking (bk_id b) (bk_user_id b) (bk_event_id b) (bk_ticket_count b)
          (bk_total_amount b) st (bk_booking_reference b)
          ps (bk_expires_at b).

Definition add_available (n : Z) (e : event) : event :=
  Event (ev_id e) (ev_event_date e) (ev_total_tickets e)
        (ev_available_tickets e + n) (ev_price e) (ev_status e).

(** [status IN ("pending", "confirmed")] *)
Definition holds_tickets (st : booking_status) : bool :=
  bool_decide (st = Pending) || bool_decide (st = Confirmed).

(** [SELECT ... FROM events WHERE id = ? AND status = "active" FOR UPDATE] *)
Definition select_active_event (eventId : Z) (d : db) : list event :=
  List.filter
    (λ e, (ev_id e =? eventId) && bool_decide (ev_status e = Active))
    (events d).

(** [SELECT event_date FROM events WHERE id = ?] *)
Definition select_event (eventId : Z) (d : db) : list event :=
  List.filter (λ e, ev_id e =? eventId) (events d).

(** [SELECT id FROM bookings WHERE user_id = ? AND event_id = ?
     AND status IN ("pending", "confirmed")] *)
Definition select_user_bookings (userId eventId : Z) (d : db) : list booking :=
  List.filter
    (λ b, (bk_user_id b =? userId) && (bk_event_id b =? eventId)
          && holds_tickets (bk_status b))
    (bookings d).

(** The interval of [DATE_ADD(NOW(), INTERVAL 15 MINUTE)]. *)
Definition reservation_window : Z := 15 * 60 * 1000.

(** [INSERT INTO bookings (user_id, event_id, ticket_count, total_amount,
     booking_reference, status, created_at, expires_at) VALUES (?, ?, ?, ?, ?,
     "pending", NOW(), DATE_ADD(NOW(), INTERVAL 15 MINUTE))].
    The statement fails ([None]) when a foreign key has no target or the
    reference is not unique; otherwise it yields the [insertId].
    [payment_status] takes its default. *)
Definition insert_booking (now : Z) (userId eventId ticketCount totalAmount : Z)
    (bookingReference : string) (d : db) : option (Z * db) :=
  if existsb (Z.eqb userId) (users d)
     && existsb (λ e, ev_id e =? eventId) (events d)
     && negb (existsb (λ b, bool_decide (bk_booking_reference b = bookingReference))
                      (bookings d))
  then
    let row := Booking (next_booking_id d) userId eventId ticketCount totalAmount
                       Pending bookingReference PayPending
                       (now + reservation_window) in
    Some (next_booking_id d,
          Database (users d) (events d) (bookings d ++ [row]) (payments d)
                   (next_booking_id d + 1) (next_payment_id d))
  else None.

(** [UPDATE events SET available_tickets = available_tickets + ? WHERE id = ?]
    (the reservation passes a negative amount for
    [available_tickets - ?]). *)
Definition add_available_tickets (n eventId : Z) (d : db) : db :=
  with_events
    (List.map (λ e, if ev_id e =? eventId then add_available n e else e)
              (events d))
    d.

(** [SELECT * FROM bookings WHERE id = ? AND user_id = ? FOR UPDATE] *)
Definition select_booking_of_user (bookingId userId : Z) (d : db) : list booking :=
  List.filter (λ b, (bk_id b =? bookingId) && (bk_user_id b =? userId))
              (bookings d).

(** [SELECT * FROM bookings WHERE id = ? FOR UPDATE] *)
Definition select_booking (bookingId : Z) (d : db) : list booking :=
  List.filter (λ b, bk_id b =? bookingId) (bookings d).

(** [UPDATE bookings SET status = "cancelled", updated_at = NOW() WHERE id = ?] *)
Definition cancel_booking_row (bookingId : Z) (d : db) : db :=
  with_bookings
    (List.map (λ b, if bk_id b =? bookingId then set_status Cancelled b else b)
              (bookings d))
    d.

(** [UPDATE bookings SET status = "confirmed", payment_status = "completed",
     updated_at = NOW() WHERE id = ?] *)
Definition confirm_booking_row (bookingId : Z) (d : db) : db :=
  with_bookings
    (List.map (λ b, if bk_id b =? bookingId
                    then set_status_and_payment Confirmed Completed b else b)
              (bookings d))
    d.

(** [INSERT INTO payments (booking_id, amount, payment_method,
     payment_gateway_id, status, created_at) VALUES (?, ?, ?, ?, "completed",
     NOW())]; fails when the booking does not exist. *)
Definition insert_payment (bookingId amount : Z) (method : payment_method)
    (gatewayId : string) (d : db) : option db :=
  if existsb (λ b, bk_id b =? bookingId) (bookings d)
  then Some (Database (users d) (events d) (bookings d)
                      (payments d ++ [Payment (next_payment_id d) bookingId amount
                                              method gatewayId Completed])
                      (next_booking_id d) (next_payment_id d + 1))
  else None.

(** [WHERE status = 'pending' AND expires_at < NOW()] *)
Definition is_expired_pending (now : Z) (b : booking) : bool :=
  bool_decide (bk_status b = Pending) && (bk_expires_at b <? now).

(** [SELECT b.id, b.event_id, b.ticket_count, b.user_id FROM bookings b
     WHERE b.status = 'pending' AND b.expires_at < NOW() FOR UPDATE] *)
Definition select_expired (now : Z) (d : db) : list booking :=
  List.filter (is_expired_pending now) (bookings d).

(** [UPDATE bookings SET status = 'expired', updated_at = NOW()
     WHERE status = 'pending' AND expires_at < NOW()] *)
Definition expire_bookings (now : Z) (d : db) : db :=
  with_bookings
    (List.map (λ b, if is_expired_pending now b then set_status Expired b else b)
              (bookings d))
    d.

End Db.

(** ** The booking service *)

Module Booking.

Import Db.

(** The JSON answer of a handler: a success body per route, or an HTTP
    error status with its [error] string. *)
Inductive reply : Type :=
| BookingCreated (bookingId : Z) (bookingReference : string)
                 (totalAmount ticketCount : Z)
| BookingCancelled (bookingId refundAmount : Z)
| PaymentConfirmed
| CleanupDone (message : string) (count : nat)
| Error (code : Z) (error : string).

(** The body of [POST /api/bookings]. *)
Record create_body : Type := {
  userId : Js.jsval;
  eventId : Js.jsval;
  ticketCount : Js.jsval
}.

(** The clock readings of one [POST /api/bookings]: Redis at the [SET],
    [new Date()] of the date check, SQL [NOW()] of the [INSERT], Redis at
    the release. *)
Record create_clock : Type := {
  at_acquire : Z;
  at_check : Z;
  at_insert : Z;
  at_release : Z
}.

Definition lockKey (eventId : Js.jsval) : string :=
  "event_booking_lock:" +:+ Js.to_string eventId.

Definition only_available (n : Z) : string :=
  "Only " +:+ pretty n +:+ " tickets available".

(** The transaction of [POST /api/bookings], from [beginTransaction] to the
    commit or the rollback. *)
Definition create_booking_tx (clk : create_clock) (bookingReference : string)
    (user event_id count : Z) (d : db) : reply * db :=
  match select_active_event event_id d with
  | [] => (Error 404 "Event not found or inactive", d)
  | event :: _ =>
    if ev_event_date event <=? at_check clk
    then (Error 400 "Cannot book tickets for past events", d)
    else if ev_available_tickets event <? count
    then (Error 400 (only_available (ev_available_tickets event)), d)
    else
      match select_user_bookings user event_id d with
      | _ :: _ => (Error 400 "You already have a booking for this event", d)
      | [] =>
        let totalAmount := ev_price event * count in
        match insert_booking (at_insert clk) user event_id count totalAmount
                             bookingReference d with
        | None => (Error 500 "Booking failed. Please try again.", d)
        | Some (insertId, d1) =>
          let d2 := add_available_tickets (- count) event_id d1 in
          (BookingCreated insertId bookingReference totalAmount count, d2)
        end
      end
  end.

(** [POST /api/bookings].  [lockValue] is the [uuidv4()] of [acquireLock],
    [bookingReference] the generated reference. *)
Definition create_booking (clk : create_clock) (lockValue bookingReference : string)
    (body : create_body) (locks : Lock.store) (d : db)
  : reply * Lock.store * db :=
  if negb (Js.truthy (userId body)) || negb (Js.truthy (eventId body))
     || negb (Js.truthy (ticketCount body))
  then (Error 400 "Missing required fields", locks, d)
  else if Js.le_num (ticketCount body) 0 || Js.gt_num (ticketCount body) 10
  then (Error 400 "Invalid ticket count (1-10 allowed)", locks, d)
  else
    let key := lockKey (eventId body) in
    let '(acquired, locks1) :=
      Lock.acquireLock (at_acquire clk) lockValue key 30 locks in
    match acquired with
    | Some v =>
      if Js.truthy_string v then
        let '(r, d') :=
          match userId body, eventId body, ticketCount body with
          | Js.JNum u, Js.JNum e, Js.JNum t =>
              create_booking_tx clk bookingReference u e t d
          | _, _, _ => (Error 500 "Booking failed. Please try again.", d)
          end in
        (r, Lock.releaseLock (at_release clk) key v locks1, d')
      else
        (Error 429 "Event is currently being booked by another user. Please try again.",
         locks1, d)
    | None =>
        (Error 429 "Event is currently being booked by another user. Please try again.",
         locks1, d)
    end.

(** [(eventDate - now) / (1000 * 60 * 60) < hours], on exact numbers. *)
Definition hours_until_lt (eventDate now hours : Z) : bool :=
  eventDate - now <? hours * (1000 * 60 * 60).

(** [POST /api/bookings/:bookingId/cancel] *)
Definition cancel_booking (now : Z) (bookingId user : Z) (d : db) : reply * db :=
  match select_booking_of_user bookingId user d with
  | [] => (Error 404 "Booking not found", d)
  | booking :: _ =>
    if bool_decide (bk_status booking = Cancelled)
    then (Error 400 "Booking already cancelled", d)
    else
      let refused : option reply :=
        if bool_decide (bk_status booking = Confirmed) then
          match select_event (bk_event_id booking) d with
          | [] => Some (Error 500 "Failed to cancel booking")
          | ev :: _ =>
            if hours_until_lt (ev_event_date ev) now 24
            then Some (Error 400 "Cannot cancel booking less than 24 hours before event")
            else None
          end
        else None in
      match refused with
      | Some r => (r, d)
      | None =>
        let d1 := cancel_booking_row bookingId d in
        let d2 := add_available_tickets (bk_ticket_count booking)
                                        (bk_event_id booking) d1 in
        (BookingCancelled bookingId
           (if bool_decide (bk_payment_status booking = Completed)
            then bk_total_amount booking else 0),
         d2)
      end
  end.

(** [POST /api/bookings/:bookingId/confirm-payment] *)
Definition confirm_payment (bookingId : Z) (paymentId : string)
    (paymentMethod : payment_method) (d : db) : reply * db :=
  match select_booking bookingId d with
  | [] => (Error 404 "Booking not found", d)
  | booking :: _ =>
    if negb (bool_decide (bk_status booking = Pending))
    then (Error 400 "Booking is not in pending status", d)
    else
      let d1 := confirm_booking_row bookingId d in
      match insert_payment bookingId (bk_total_amount booking) paymentMethod
                           paymentId d1 with
      | None => (Error 500 "Failed to confirm payment", d)
      | Some d2 => (PaymentConfirmed, d2)
      end
  end.

(** [POST /api/bookings/cleanup-expired].  The [SELECT] and the bulk
    [UPDATE] are two statements and each evaluates [NOW()]. *)
Definition cleanup_expired (now_select now_update : Z) (d : db) : reply * db :=
  let expiredBookings := select_expired now_select d in
  match expiredBookings with
  | [] => (CleanupDone "No expired bookings found" 0, d)
  | _ :: _ =>
    let d1 :=
      fold_left
        (λ acc booking,
           add_available_tickets (bk_ticket_count booking) (bk_event_id booking) acc)
        expiredBookings d in
    let d2 := expire_bookings now_update d1 in
    (CleanupDone "Expired bookings cleaned up successfully" (length expiredBookings),
     d2)
  end.

End Booking.

(** ** The payment worker *)

Module Worker.

(** The JSON content of a [payment_processing] message. *)
Record payment_data : Type := {
  bookingId : Z;
  userId : Z;
  amount : Z;
  bookingReference : string
}.

(** A delivered message: its content and [msg.properties.headers]. *)
Record message : Type := {
  content : payment_data;
  headers : option (gmap string Js.jsval)
}.

Inductive payload : Type :=
| PaymentRequest (data : payment_data)
| PaymentSuccess (data : payment_data) (paymentId : string)
| PaymentFailure (data : payment_data) (error : string).

(** What the worker does on the channel: publish to a queue or acknowledge
    a delivery, at once or from a [setTimeout] callback. *)
Inductive action : Type :=
| SendToQueue (queue : string) (body : payload)
              (hdrs : option (gmap string Js.jsval))
| Ack (m : message).

Inductive effect : Type :=
| Now (a : action)
| SetTimeout (delay : Z) (callback : list action).

(** The answer of [processPaymentGateway]. *)
Inductive gateway_result : Type :=
| GatewaySuccess (paymentId : string)
| GatewayFailure (error : string).

(** [(msg.properties.headers && msg.properties.headers.retryCount) || 0] *)
Definition retryCount (m : message) : Z :=
  let stored :=
    match headers m with
    | Some h => default Js.JUndefined (h !! "retryCount")
    | None => Js.JUndefined
    end in
  match Js.or_else stored (Js.JNum 0) with
  | Js.JNum n => n
  | _ => 0
  end.

(** The [catch] block of [processPayment]. *)
Definition on_processing_error (m : message) : list effect :=
  let n := retryCount m in
  if n <? 3 then
    [SetTimeout (5000 * (n + 1))
       [SendToQueue "payment_processing" (PaymentRequest (content m))
                    (Some {[ "retryCount" := Js.JNum (n + 1) ]});
        Ack m]]
  else [Now (Ack m)].

(** [axios.post] resolves on a 2xx answer and rejects otherwise. *)
Definition resolves (r : Booking.reply) : bool :=
  match r with Booking.Error _ _ => false | _ => true end.

(** The body of [processPayment] for a delivery [m].  [gw] is the gateway's
    answer, [reachable] tells whether the booking service answered the
    [axios.post] at all, [now] is the booking service's clock when it serves
    the compensating cancel. *)
Definition process_delivery (now : Z) (gw : gateway_result) (reachable : bool)
    (m : message) (d : Db.db) : list effect * Db.db :=
  let data := content m in
  match gw with
  | GatewaySuccess paymentId =>
    if reachable then
      let '(r, d') := Booking.confirm_payment (bookingId data) paymentId
                                              Db.credit_card d in
      if resolves r
      then ([Now (SendToQueue "payment_results" (PaymentSuccess data paymentId) None);
             Now (Ack m)], d')
      else (on_processing_error m, d')
    else (on_processing_error m, d)
  | GatewayFailure err =>
    if reachable then
      let '(r, d') := Booking.cancel_booking now (bookingId data) (userId data) d in
      if resolves r
      then ([Now (SendToQueue "payment_results" (PaymentFailure data err) None);
             Now (Ack m)], d')
      else (on_processing_error m, d')
    else (on_processing_error m, d)
  end.

(** [processPayment(msg)]: a [null] delivery returns at once. *)
Definition processPayment (now : Z) (gw : gateway_result) (reachable : bool)
    (msg : option message) (d : Db.db) : list effect * Db.db :=
  match msg with
  | None => ([], d)
  | Some m => process_delivery now gw reachable m d
  end.

(** The messages an effect list puts on a queue, with the delay after which
    each is published. *)
Definition published_by (queue : string) (a : action) : list message :=
  match a with
  | SendToQueue q (PaymentRequest data) hdrs =>
      if bool_decide (q = queue) then [{| content := data; headers := hdrs |}] else []
  | _ => []
  end.

Definition republished (es : list effect) : list (Z * message) :=
  flat_map
    (λ e, match e with
          | Now a => List.map (pair 0) (published_by "payment_processing" a)
          | SetTimeout delay cb =>
              List.map (pair delay)
                       (flat_map (published_by "payment_processing") cb)
          end)
    es.

(** The acknowledgements of an effect list, in the order they are made. *)
Definition acked (es : list effect) : list message :=
  flat_map
    (λ e, match e with
          | Now (Ack m) => [m]
          | Now _ => []
          | SetTimeout _ cb =>
              flat_map (λ a, match a with Ack m => [m] | _ => [] end) cb
          end)
    es.

(** The deliveries of one logical message when every processing of it
    raises: the delivered message, then whatever the [catch] block puts back
    on the queue.  [fuel] bounds the deliveries that are followed. *)
Fixpoint failing_deliveries (fuel : nat) (m : message) : list message :=
  match fuel with
  | O => []
  | S fuel' =>
    m :: flat_map (λ dm, failing_deliveries fuel' (snd dm))
                  (republished (on_processing_error m))
  end.

End Worker.

(** ** The inventory invariant, transitions and operations *)

Module Inventory.

Import Db.

(** What a booking holds of the tickets of event [eventId]: its
    [ticket_count] while it is pending or confirmed. *)
Definition held_by (eventId : Z) (b : booking) : Z :=
  if (bk_event_id b =? eventId) && holds_tickets (bk_status b)
  then bk_ticket_count b else 0.

(** Sum of [ticket_count] over the pending or confirmed bookings of an
    event. *)
Fixpoint reserved_tickets (eventId : Z) (bs : list booking) : Z :=
  match bs with
  | [] => 0
  | b :: bs' => held_by eventId b + reserved_tickets eventId bs'
  end.

Definition balanced (d : db) (e : event) : Prop :=
  ev_available_tickets e + reserved_tickets (ev_id e) (bookings d)
  = ev_total_tickets e.

(** The central invariant, for every event of the database. *)
Definition invariant (d : db) : Prop := Forall (balanced d) (events d).

Definition invariantb (d : db) : bool :=
  forallb
    (λ e, ev_available_tickets e + reserved_tickets (ev_id e) (bookings d)
          =? ev_total_tickets e)
    (events d).

(** Primary keys. *)
Definition unique_booking_ids (d : db) : Prop :=
  List.NoDup (List.map bk_id (bookings d)).

(** Primary keys come from the [AUTO_INCREMENT] counter. *)
Definition well_formed (d : db) : Prop :=
  unique_booking_ids d
  ∧ Forall (λ b, bk_id b < next_booking_id d) (bookings d).

(** The transitions of the booking state machine. *)
Definition legal_transition (s s' : booking_status) : bool :=
  match s, s' with
  | Pending, Confirmed | Pending, Cancelled | Pending, Expired
  | Confirmed, Cancelled => true
  | _, _ => false
  end.

(** The four state-changing routes of the booking service, with their
    arguments. *)
Inductive operation : Type :=
| Create (clk : Booking.create_clock) (lockValue bookingReference : string)
         (body : Booking.create_body)
| Cancel (now bookingId user : Z)
| ConfirmPayment (bookingId : Z) (paymentId : string) (method : payment_method)
| CleanupExpired (now_select now_update : Z).

Definition run (o : operation) (locks : Lock.store) (d : db)
  : Booking.reply * Lock.store * db :=
  match o with
  | Create clk lockValue bookingReference body =>
      Booking.create_booking clk lockValue bookingReference body locks d
  | Cancel now bookingId user =>
      let '(r, d') := Booking.cancel_booking now bookingId user d in (r, locks, d')
  | ConfirmPayment bookingId paymentId method =>
      let '(r, d') := Booking.confirm_payment bookingId paymentId method d in
      (r, locks, d')
  | CleanupExpired now_select now_update =>
      let '(r, d') := Booking.cleanup_expired now_select now_update d in
      (r, locks, d')
  end.

(** The operations that stay within the state machine and read one clock:
    a cancellation that does not find an expired booking, and a sweep whose
    two statements read the same time. *)
Definition regular (o : operation) (d : db) : Prop :=
  match o with
  | Cancel now bookingId user =>
      ∀ bk rest, select_booking_of_user bookingId user d = bk :: rest →
                 bk_status bk ≠ Expired
  | CleanupExpired now_select now_update => now_select = now_update
  | _ => True
  end.

(** The tickets an effective sweep gives back to event [eventId]. *)
Definition restored_to (eventId : Z) (selected : list booking) : Z :=
  fold_right (λ b acc, (if bk_event_id b =? eventId then bk_ticket_count b else 0) + acc)
             0 selected.

End Inventory.

(** ** Concrete states used by the examples *)

Module Sample.

Import Db.

Definition hour : Z := 1000 * 60 * 60.

(** One active event of two tickets at 50.00, ten days ahead of time 0, and
    two registered users. *)
Definition fresh : db :=
  {| users := [7; 8];
     events := [Event 1 (240 * hour) 2 2 5000 Active];
     bookings := [];
     payments := [];
     next_booking_id := 1;
     next_payment_id := 1 |}.

Definition clock0 : Booking.create_clock :=
  {| Booking.at_acquire := 0; Booking.at_check := 0;
     Booking.at_insert := 0; Booking.at_release := 5 |}.

Definition body (u e t : Z) : Booking.create_body :=
  {| Booking.userId := Js.JNum u; Booking.eventId := Js.JNum e;
     Booking.ticketCount := Js.JNum t |}.

(** User 7 reserves both tickets. *)
Definition reserved : db :=
  snd (Booking.create_booking clock0 "uuid-1" "BK1" (body 7 1 2) ∅ fresh).

(** The reservation window elapses and the sweep runs, with one clock
    reading for both of its statements. *)
Definition swept : db :=
  snd (Booking.cleanup_expired (reservation_window + 1) (reservation_window + 1)
                               reserved).

(** The payment of the reservation is confirmed instead. *)
Definition paid : db :=
  snd (Booking.confirm_payment 1 "PAY_1" credit_card reserved).

(** Two pending reservations of event 1 (five tickets in all), the first
    expiring at 5 and the second at 10. *)
Definition two_pending : db :=
  {| users := [7; 8];
     events := [Event 1 (240 * hour) 5 2 5000 Active];
     bookings := [Booking 1 7 1 1 5000 Pending "BK1" PayPending 5;
                  Booking 2 8 1 2 10000 Pending "BK2" PayPending 10];
     payments := [];
     next_booking_id := 3;
     next_payment_id := 1 |}.

(** A confirmed booking of event 1 whose payment was refunded out of band. *)
Definition refunded : db :=
  {| users := [7; 8];
     events := [Event 1 (240 * hour) 2 0 5000 Active];
     bookings := [Booking 1 7 1 2 10000 Confirmed "BK1" Refunded 900000];
     payments := [Payment 1 1 10000 credit_card "PAY_1" Refunded];
     next_booking_id := 2;
     next_payment_id := 2 |}.

(** The payment message of booking 1 as the booking service publishes it:
    without headers. *)
Definition payment_message : Worker.message :=
  {| Worker.content := {| Worker.bookingId := 1; Worker.userId := 7;
                          Worker.amount := 10000;
                          Worker.bookingReference := "BK1" |};
     Worker.headers := None |}.

(** A key space in which the lock of event 7 is held with token "tok-a". *)
Definition held_lock : Lock.store :=
  {[ "event_booking_lock:7" := {| Lock.value := "tok-a"; Lock.expires := 30000 |} ]}.

End Sample.

(** ** The event service *)

Module EventService.

Import Db.

(** The JSON answer of the two writing routes of the event service. *)
Inductive reply : Type :=
| EventCreated (eventId : Z)
| EventUpdated
| Error (code : Z) (error : string).

(** The body of [PUT /api/events/:id], as far as the columns of [event]
    go.  Every field is present in the body: [None] is JSON [null]. *)
Record update_body : Type := {
  up_eventDate : option Z;
  up_totalTickets : option Z;
  up_price : option Z;
  up_status : option event_status
}.

(** Truthiness of a number that may be [null]. *)
Definition truthy_number (v : option Z) : bool :=
  match v with Some n => negb (n =? 0) | None => false end.

(** One row under the [UPDATE events SET ... = COALESCE(?, ...),
    available_tickets = ? ...] of the update route. *)
Definition update_row (body : update_body) (newAvailableTickets : Z) (e : event)
  : event :=
  Event (ev_id e)
        (default (ev_event_date e) (up_eventDate body))
        (default (ev_total_tickets e) (up_totalTickets body))
        newAvailableTickets
        (default (ev_price e) (up_price body))
        (default (ev_status e) (up_status body)).

Definition cannot_reduce (soldTickets : Z) : string :=
  "Cannot reduce total tickets below " +:+ pretty soldTickets +:+ " (already sold)".

(** [KEYS prefix*]: the keys that exist at [now] and start with [prefix]. *)
Definition keys_with_prefix (now : Z) (prefix : string) (s : Lock.store)
  : list string :=
  List.filter
    (λ k, String.prefix prefix k && bool_decide (is_Some (Lock.get now s k)))
    (List.map fst (map_to_list s)).

(** [const keys = await redisClient.keys(pattern);
     if (keys.length > 0) await redisClient.del(keys)] *)
Definition invalidate (now : Z) (prefix : string) (s : Lock.store) : Lock.store :=
  match keys_with_prefix now prefix s with
  | [] => s
  | keys => foldr delete s keys
  end.

(** [PUT /api/events/:id] on the database and the Redis key space. *)
Definition update_event (now : Z) (id : Z) (body : update_body)
    (redis : Lock.store) (d : db) : reply * Lock.store * db :=
  match select_event id d with
  | [] => (Error 404 "Event not found", redis, d)
  | existingEvent :: _ =>
    let soldTickets :=
      ev_total_tickets existingEvent - ev_available_tickets existingEvent in
    let totalTickets := default 0 (up_totalTickets body) in
    if truthy_number (up_totalTickets body) && (totalTickets <? soldTickets)
    then (Error 400 (cannot_reduce soldTickets), redis, d)
    else
      let newAvailableTickets :=
        if truthy_number (up_totalTickets body)
        then totalTickets - soldTickets
        else ev_available_tickets existingEvent in
      (EventUpdated,
       invalidate now "event" redis,
       with_events
         (List.map (λ e, if ev_id e =? id
                         then update_row body newAvailableTickets e else e)
                   (events d))
         d)
  end.

(** The body of [POST /api/events]: [title] and [venue] are strings or
    [null], [eventDate] a date or [null], the two numbers are [jsval]s. *)
Record create_body : Type := {
  cr_title : option string;
  cr_venue : option string;
  cr_eventDate : option Z;
  cr_totalTickets : Js.jsval;
  cr_price : Js.jsval
}.

Definition truthy_text (v : option string) : bool :=
  match v with Some s => Js.truthy_string s | None => false end.

(** [POST /api/events].  [insertId] is the id the [AUTO_INCREMENT] counter
    of [events] gives to the new row. *)
Definition create_event (now : Z) (insertId : Z) (body : create_body)
    (redis : Lock.store) (d : db) : reply * Lock.store * db :=
  if negb (truthy_text (cr_title body)) || negb (truthy_text (cr_venue body))
     || negb (bool_decide (is_Some (cr_eventDate body)))
     || negb (Js.truthy (cr_totalTickets body)) || negb (Js.truthy (cr_price body))
  then (Error 400 "Missing required fields", redis, d)
  else if Js.le_num (cr_totalTickets body) 0 || Js.lt_num (cr_price body) 0
  then (Error 400 "Invalid ticket count or price", redis, d)
  else
    match cr_eventDate body, cr_totalTickets body, cr_price body with
    | Some date, Js.JNum totalTickets, Js.JNum price =>
        (EventCreated insertId,
         invalidate now "events:" redis,
         with_events
           (events d ++ [Event insertId date totalTickets totalTickets price Active])
           d)
    | _, _, _ => (Error 500 "Failed to create event", redis, d)
    end.

End EventService.

(** ** The manual payment route of the payment service *)

Module PaymentApi.

Import Db.

Inductive reply : Type :=
| Processed (paymentId : string)
| Declined (error : string)
| Error (code : Z) (error : string).

(** The body of [POST /api/payments/process]; an absent [paymentMethod]
    ([None]) takes the default. *)
Record process_body : Type := {
  bookingId : Js.jsval;
  amount : Js.jsval;
  paymentMethod : option payment_method
}.

(** [POST /api/payments/process], with the gateway's answer [gw]. *)
Definition process (gw : Worker.gateway_result) (body : process_body) (d : db)
  : reply * db :=
  let method := default credit_card (paymentMethod body) in
  if negb (Js.truthy (bookingId body)) || negb (Js.truthy (amount body))
  then (Error 400 "Missing required fields", d)
  else
    match gw with
    | Worker.GatewaySuccess paymentId =>
      match bookingId body, amount body with
      | Js.JNum b, Js.JNum a =>
        match insert_payment b a method paymentId d with
        | Some d' => (Processed paymentId, d')
        | None => (Error 500 "Payment processing failed", d)
        end
      | _, _ => (Error 500 "Payment processing failed", d)
      end
    | Worker.GatewayFailure err => (Declined err, d)
    end.

End PaymentApi.

(** ** Further invariants of the store *)

Module Stock.

Import Db.

Definition unique_event_ids (d : db) : Prop :=
  List.NoDup (List.map ev_id (events d)).

(** Event ids are distinct, no event has negative [available_tickets], and
    every booking is for 1 to 10 tickets.  This does not bound the tickets
    held by bookings by [total_tickets]. *)
Definition stock_ok (d : db) : Prop :=
  unique_event_ids d
  ∧ Forall (λ e, 0 ≤ ev_available_tickets e) (events d)
  ∧ Forall (λ b, 1 ≤ bk_ticket_count b ≤ 10) (bookings d).

(** A user holds at most one pending or confirmed booking of an event. *)
Definition one_booking_per_user (d : db) : Prop :=
  ∀ u e, (length (select_user_bookings u e d) ≤ 1)%nat.

(** [total_tickets - available_tickets] *)
Definition sold (e : event) : Z := ev_total_tickets e - ev_available_tickets e.

End Stock.

(** ** The simplified booking service *)

Module BookingV2.

Import Db.

(** [POST /api/bookings] of the service that announces itself as
    "Booking service v2": no lock, no range check of [ticketCount], no check
    of the event date or of the user's other bookings.  [now] is the
    [NOW()] of the [INSERT]. *)
Definition create_booking (now : Z) (bookingReference : string)
    (body : Booking.create_body) (d : db) : Booking.reply * db :=
  if negb (Js.truthy (Booking.userId body)) || negb (Js.truthy (Booking.eventId body))
     || negb (Js.truthy (Booking.ticketCount body))
  then (Booking.Error 400 "Missing required fields", d)
  else
    match Booking.userId body, Booking.eventId body, Booking.ticketCount body with
    | Js.JNum u, Js.JNum e, Js.JNum t =>
      match select_active_event e d with
      | [] => (Booking.Error 404 "Event not found", d)
      | event :: _ =>
        if ev_available_tickets event <? t
        then (Booking.Error 400 (Booking.only_available (ev_available_tickets event)), d)
        else
          let totalAmount := ev_price event * t in
          match insert_booking now u e t totalAmount bookingReference d with
          | None => (Booking.Error 500 "Booking failed", d)
          | Some (insertId, d1) =>
            (Booking.BookingCreated insertId bookingReference totalAmount t,
             add_available_tickets (- t) e d1)
          end
      end
    | _, _, _ => (Booking.Error 500 "Booking failed", d)
    end.

End BookingV2.

(** ** Sequences of requests *)

Module Trace.

Import Db.

(** The requests of a list served one after the other, each on the key
    space and the database the one before left. *)
Fixpoint run_all (ops : list Inventory.operation) (locks : Lock.store) (d : db)
  : Lock.store * db :=
  match ops with
  | [] => (locks, d)
  | o :: ops' =>
    let '(_, locks', d') := Inventory.run o locks d in run_all ops' locks' d'
  end.

(** Every request of the list is regular in the state it is served in. *)
Fixpoint all_regular (ops : list Inventory.operation) (locks : Lock.store) (d : db)
  : Prop :=
  match ops with
  | [] => True
  | o :: ops' =>
    Inventory.regular o d
    ∧ let '(_, locks', d') := Inventory.run o locks d in all_regular ops' locks' d'
  end.

End Trace.

(** ** Concrete states of the further examples *)

Module Fixture.

Import Db.

(** The key space right after a reservation of event 1 took its lock at
    time 0, together with a cached page of the event list. *)
Definition locked : Lock.store :=
  <[ "events:active:1:10" := {| Lock.value := "{}"; Lock.expires := 300000 |} ]>
  (<[ "event_booking_lock:1" := {| Lock.value := "uuid-1"; Lock.expires := 30000 |} ]>
   ∅).

Definition raise_total : EventService.update_body :=
  {| EventService.up_eventDate := None;
     EventService.up_totalTickets := Some 5;
     EventService.up_price := None;
     EventService.up_status := None |}.

Definition concert : EventService.create_body :=
  {| EventService.cr_title := Some "Concert";
     EventService.cr_venue := Some "Arena";
     EventService.cr_eventDate := Some (240 * Sample.hour);
     EventService.cr_totalTickets := Js.JNum 100;
     EventService.cr_price := Js.JNum 5000 |}.

(** User 7 reserves two tickets, user 8 tries to reserve one, the payment
    of user 7 is confirmed, and user 7 cancels ten days before the event. *)
Definition requests : list Inventory.operation :=
  [Inventory.Create Sample.clock0 "uuid-1" "BK1" (Sample.body 7 1 2);
   Inventory.Create Sample.clock0 "uuid-2" "BK2" (Sample.body 8 1 1);
   Inventory.ConfirmPayment 1 "PAY_1" credit_card;
   Inventory.Cancel 0 1 7].

Definition manual_payment : PaymentApi.process_body :=
  {| PaymentApi.bookingId := Js.JNum 1;
     PaymentApi.amount := Js.JNum 10000;
     PaymentApi.paymentMethod := None |}.

End Fixture.

(** * Properties *)

Import Db.

(** ** Lock safety *)

(** As [releaseLock] calls it, the script gets no key: it fails, and the
    key space is left as it was, whatever the key and the token. *)
Lemma releaseLock_unchanged (now : Z) (key lockValue : string) (s : Lock.store) :
  Lock.eval now (Lock.EvalNumber 1) [key; lockValue] s = None
  ∧ Lock.releaseLock now key lockValue s = s.
Proof. split; reflexivity. Qed.

(** Given the key and the token, the script is a compare-and-delete: it
    deletes the key exactly when the key holds the token. *)
Lemma release_script_compare_and_delete (now : Z) (key token : string)
    (s : Lock.store) (held : string) :
  Lock.get now s key = Some held →
  (held = token → Lock.release_script now [key] [token] s = Some (1, delete key s))
  ∧ (held ≠ token → Lock.release_script now [key] [token] s = Some (0, s)).
Proof.
  intros Hget. unfold Lock.release_script. rewrite Hget. split.
  - intros ->. by rewrite decide_True.
  - intros Hne. rewrite decide_False by congruence. done.
Qed.


(** ** Validation of a reservation request *)

Section CreateBooking.

Variables (clk : Booking.create_clock) (lockValue bookingReference : string).

Lemma create_booking_tx_reply (u e t : Z) (d : db) :
  let r := fst (Booking.create_booking_tx clk bookingReference u e t d) in
  (∃ code msg, r = Booking.Error code msg
     ∧ msg ≠ "Invalid ticket count (1-10 allowed)"
     ∧ msg ≠ "Missing required fields"
     ∧ snd (Booking.create_booking_tx clk bookingReference u e t d) = d)
  ∨ (∃ id amount, r = Booking.BookingCreated id bookingReference amount t).
Proof.
  unfold Booking.create_booking_tx.
  destruct (select_active_event e d) as [| ev evs]; simpl.
  { left. eexists _, _. repeat split; discriminate. }
  destruct (ev_event_date ev <=? Booking.at_check clk); simpl.
  { left. eexists _, _. repeat split; discriminate. }
  destruct (ev_available_tickets ev <? t); simpl.
  { left. eexists _, _. repeat split; discriminate. }
  destruct (select_user_bookings u e d); simpl.
  2: { left. eexists _, _. repeat split; discriminate. }
  destruct (insert_booking _ _ _ _ _ _ d) as [[insertId d1] |]; simpl.
  - right. eauto.
  - left. eexists _, _. repeat split; discriminate.
Qed.

(** A request that fails leaves the database as it found it. *)
Lemma create_booking_error_rolls_back (body : Booking.create_body)
    (locks : Lock.store) (d : db) (code : Z) (msg : string) :
  fst (fst (Booking.create_booking clk lockValue bookingReference body locks d))
    = Booking.Error code msg →
  snd (Booking.create_booking clk lockValue bookingReference body locks d) = d.
Proof.
  unfold Booking.create_booking.
  destruct (negb _ || negb _ || negb _); [done |].
  destruct (Js.le_num _ 0 || Js.gt_num _ 10); [done |].
  destruct (Lock.acquireLock _ _ _ _ _) as [[v |] locks1]; [| done].
  destruct (Js.truthy_string v); [| done].
  destruct (Booking.userId body) as [| | u]; [done | done |].
  destruct (Booking.eventId body) as [| | e]; [done | done |].
  destruct (Booking.ticketCount body) as [| | t]; [done | done |].
  pose proof (create_booking_tx_reply u e t d) as Htx. simpl in Htx.
  destruct (Booking.create_booking_tx clk bookingReference u e t d) as [r d'].
  simpl in *. intros ->.
  destruct Htx as [(c & m & _ & _ & _ & Hd) | (id & amount & Hr)];
    [exact Hd | discriminate].
Qed.

End CreateBooking.

(** C9. A reservation request whose [userId], [eventId] or [ticketCount]
    is falsy (a [ticketCount] of 0 in particular) is answered "Missing
    required fields" with the lock store and the database untouched,
    whatever the state of the lock; the range error is answered only for a
    [ticketCount] that is a number other than 0 outside 1..10, and then too
    nothing is locked or changed. *)
Theorem create_booking_falsy_fields (clk : Booking.create_clock)
    (lockValue bookingReference : string) (body : Booking.create_body)
    (locks : Lock.store) (d : db) :
  (Js.truthy (Booking.userId body) = false
   ∨ Js.truthy (Booking.eventId body) = false
   ∨ Js.truthy (Booking.ticketCount body) = false →
     Booking.create_booking clk lockValue bookingReference body locks d
     = (Booking.Error 400 "Missing required fields", locks, d))
  ∧ (Booking.ticketCount body = Js.JNum 0 →
     Booking.create_booking clk lockValue bookingReference body locks d
     = (Booking.Error 400 "Missing required fields", locks, d))
  ∧ (∀ code,
     fst (fst (Booking.create_booking clk lockValue bookingReference body locks d))
       = Booking.Error code "Invalid ticket count (1-10 allowed)" →
     ∃ n, Booking.ticketCount body = Js.JNum n ∧ n ≠ 0 ∧ (n < 1 ∨ 10 < n)
          ∧ Js.truthy (Booking.userId body) = true
          ∧ Js.truthy (Booking.eventId body) = true
          ∧ Booking.create_booking clk lockValue bookingReference body locks d
            = (Booking.Error 400 "Invalid ticket count (1-10 allowed)", locks, d)).
Proof.
  assert (Hfalsy :
    Js.truthy (Booking.userId body) = false
    ∨ Js.truthy (Booking.eventId body) = false
    ∨ Js.truthy (Booking.ticketCount body) = false →
    Booking.create_booking clk lockValue bookingReference body locks d
    = (Booking.Error 400 "Missing required fields", locks, d)).
  { intros H. unfold Booking.create_booking.
    destruct H as [-> | [-> | ->]]; simpl;
      rewrite ?orb_true_r; reflexivity. }
  split; [exact Hfalsy |]. split.
  { intros Hzero. apply Hfalsy. right; right. by rewrite Hzero. }
  intros code. unfold Booking.create_booking.
  destruct (Js.truthy (Booking.userId body)) eqn:Hu; simpl; [| discriminate].
  destruct (Js.truthy (Booking.eventId body)) eqn:He; simpl; [| discriminate].
  destruct (Js.truthy (Booking.ticketCount body)) eqn:Ht; simpl; [| discriminate].
  destruct (Js.le_num _ 0 || Js.gt_num _ 10) eqn:Hrange.
  - intros _. destruct (Booking.ticketCount body) as [| | n]; try discriminate.
    exists n. simpl in Ht, Hrange. unfold Js.le_num, Js.gt_num in Hrange.
    simpl in Hrange. repeat split; try done; lia.
  - destruct (Lock.acquireLock _ _ _ _ _) as [[v |] locks1]; [| discriminate].
    destruct (Js.truthy_string v); [| discriminate].
    destruct (Booking.userId body) as [| | u]; try discriminate.
    destruct (Booking.eventId body) as [| | e]; try discriminate.
    destruct (Booking.ticketCount body) as [| | t]; try discriminate.
    pose proof (create_booking_tx_reply clk bookingReference u e t d) as Htx.
    simpl in Htx.
    destruct (Booking.create_booking_tx clk bookingReference u e t d) as [r d'].
    simpl in *. intros ->.
    destruct Htx as [(c & m & Hr & Hm & _) | (id & amount & Hr)];
      [| discriminate].
    injection Hr as _ <-. done.
Qed.

Lemma create_booking_falsy_fields_witness :
  Booking.create_booking Sample.clock0 "uuid-1" "BK1" (Sample.body 7 1 0)
                         Sample.held_lock Sample.fresh
  = (Booking.Error 400 "Missing required fields", Sample.held_lock, Sample.fresh).
Proof.
  apply (create_booking_falsy_fields Sample.clock0 "uuid-1" "BK1"
           (Sample.body 7 1 0) Sample.held_lock Sample.fresh).
  reflexivity.
Defined.

(** The lock of a well-formed request is free: the handler runs the
    transaction and then calls [releaseLock]. *)
Lemma create_booking_runs_tx (clk : Booking.create_clock)
    (lockValue bookingReference : string) (u e t : Z)
    (locks : Lock.store) (d : db) :
  u ≠ 0 → e ≠ 0 → 1 ≤ t ≤ 10 → lockValue ≠ "" →
  Lock.get (Booking.at_acquire clk) locks (Booking.lockKey (Js.JNum e)) = None →
  let body := {| Booking.userId := Js.JNum u; Booking.eventId := Js.JNum e;
                 Booking.ticketCount := Js.JNum t |} in
  fst (fst (Booking.create_booking clk lockValue bookingReference body locks d))
    = fst (Booking.create_booking_tx clk bookingReference u e t d)
  ∧ snd (Booking.create_booking clk lockValue bookingReference body locks d)
    = snd (Booking.create_booking_tx clk bookingReference u e t d).
Proof.
  intros Hu He Ht Hv Hfree. simpl.
  unfold Booking.create_booking. simpl.
  assert (Hu' : (u =? 0) = false) by lia.
  assert (He' : (e =? 0) = false) by lia.
  assert (Ht' : (t =? 0) = false) by lia.
  rewrite Hu', He', Ht'. simpl.
  unfold Js.le_num, Js.gt_num. simpl.
  assert (Hle : (t <=? 0) = false) by lia.
  assert (Hgt : (10 <? t) = false) by lia.
  rewrite Hle, Hgt. simpl.
  unfold Lock.acquireLock, Lock.set_px_nx. rewrite Hfree.
  destruct lockValue as [| c rest]; [done |]. simpl.
  destruct (Booking.create_booking_tx clk bookingReference u e t d). done.
Qed.

(** C6. A reservation that reaches the transaction and fails one of its
    checks answers the error of that check and leaves the database (so the
    bookings and every [available_tickets]) as it was; the error for
    insufficient inventory carries the [available_tickets] that remain. *)
Theorem create_booking_validation_failure (clk : Booking.create_clock)
    (lockValue bookingReference : string) (u e t : Z)
    (locks : Lock.store) (d : db) :
  u ≠ 0 → e ≠ 0 → 1 ≤ t ≤ 10 → lockValue ≠ "" →
  Lock.get (Booking.at_acquire clk) locks (Booking.lockKey (Js.JNum e)) = None →
  let body := {| Booking.userId := Js.JNum u; Booking.eventId := Js.JNum e;
                 Booking.ticketCount := Js.JNum t |} in
  let out := Booking.create_booking clk lockValue bookingReference body locks d in
  (select_active_event e d = [] →
     fst (fst out) = Booking.Error 404 "Event not found or inactive" ∧ snd out = d)
  ∧ (∀ ev rest, select_active_event e d = ev :: rest →
       (ev_event_date ev ≤ Booking.at_check clk →
          fst (fst out) = Booking.Error 400 "Cannot book tickets for past events"
          ∧ snd out = d)
     ∧ (Booking.at_check clk < ev_event_date ev → ev_available_tickets ev < t →
          fst (fst out)
            = Booking.Error 400 ("Only " +:+ pretty (ev_available_tickets ev)
                                  +:+ " tickets available")
          ∧ snd out = d)
     ∧ (Booking.at_check clk < ev_event_date ev → t ≤ ev_available_tickets ev →
        select_user_bookings u e d ≠ [] →
          fst (fst out) = Booking.Error 400 "You already have a booking for this event"
          ∧ snd out = d)).
Proof.
  intros Hu He Ht Hv Hfree body out.
  destruct (create_booking_runs_tx clk lockValue bookingReference u e t locks d
              Hu He Ht Hv Hfree) as [Hr Hd].
  fold body in Hr, Hd. fold out in Hr, Hd. rewrite Hr, Hd. clear Hr Hd out.
  unfold Booking.create_booking_tx.
  split.
  { intros ->. done. }
  intros ev rest ->. split; [| split].
  - intros Hpast.
    assert (Hb : (ev_event_date ev <=? Booking.at_check clk) = true) by lia.
    rewrite Hb. done.
  - intros Hfuture Hshort.
    assert (Hb : (ev_event_date ev <=? Booking.at_check clk) = false) by lia.
    assert (Hs : (ev_available_tickets ev <? t) = true) by lia.
    rewrite Hb, Hs. done.
  - intros Hfuture Henough Hdup.
    assert (Hb : (ev_event_date ev <=? Booking.at_check clk) = false) by lia.
    assert (Hs : (ev_available_tickets ev <? t) = false) by lia.
    rewrite Hb, Hs.
    destruct (select_user_bookings u e d); done.
Qed.

Lemma create_booking_validation_failure_witness :
  fst (fst (Booking.create_booking Sample.clock0 "uuid-2" "BK2" (Sample.body 8 1 1)
                                   ∅ Sample.reserved))
    = Booking.Error 400 "Only 0 tickets available"
  ∧ snd (Booking.create_booking Sample.clock0 "uuid-2" "BK2" (Sample.body 8 1 1)
                                ∅ Sample.reserved)
    = Sample.reserved.
Proof.
  assert (H8 : (8 : Z) ≠ 0) by lia.
  assert (H1 : (1 : Z) ≠ 0) by lia.
  assert (Ht : 1 ≤ 1 ≤ 10) by lia.
  assert (Hv : "uuid-2" ≠ "") by discriminate.
  assert (Hfree : Lock.get (Booking.at_acquire Sample.clock0) ∅
                           (Booking.lockKey (Js.JNum 1)) = None) by reflexivity.
  destruct (create_booking_validation_failure Sample.clock0 "uuid-2" "BK2" 8 1 1
              ∅ Sample.reserved H8 H1 Ht Hv Hfree) as [_ Hfound].
  destruct (Hfound (Event 1 (240 * Sample.hour) 2 0 5000 Active) [] eq_refl)
    as (_ & Hshort & _).
  apply Hshort; vm_compute; reflexivity.
Defined.

(** ** Confirmation of a payment *)

Lemma select_booking_after_update (f : booking → booking) (bookingId : Z)
    (bs : list booking) :
  (∀ b, bk_id (f b) = bk_id b) →
  List.filter (λ b, bk_id b =? bookingId)
              (List.map (λ b, if bk_id b =? bookingId then f b else b) bs)
  = List.map f (List.filter (λ b, bk_id b =? bookingId) bs).
Proof.
  intros Hid. induction bs as [| b bs IH]; [done |]. simpl.
  destruct (bk_id b =? bookingId) eqn:Hb; simpl.
  - rewrite Hid, Hb. by rewrite IH.
  - rewrite Hb. exact IH.
Qed.

Lemma filter_cons_existsb {A : Type} (p : A → bool) (l : list A) (x : A)
    (rest : list A) :
  List.filter p l = x :: rest → existsb p l = true.
Proof.
  intros Hf. apply existsb_exists. exists x.
  assert (Hin : In x (List.filter p l)) by (rewrite Hf; left; done).
  apply filter_In in Hin. exact Hin.
Qed.

(** C4. On a pending booking the confirmation succeeds: the booking
    gets status confirmed and [payment_status] completed and is otherwise
    as it was, no other booking changes, one completed payment row of the
    booking's amount is appended, and the events are untouched.  Any later
    confirmation of that booking, like any confirmation of a booking that
    is not pending, is answered with an error and changes nothing. *)
Theorem confirm_payment_once (bookingId : Z) (paymentId : string)
    (method : payment_method) (d : db) (bk : booking) (rest : list booking) :
  select_booking bookingId d = bk :: rest →
  (bk_status bk = Pending →
     ∃ d', Booking.confirm_payment bookingId paymentId method d
           = (Booking.PaymentConfirmed, d')
       ∧ (∃ rest',
            select_booking bookingId d'
            = Booking (bk_id bk) (bk_user_id bk) (bk_event_id bk)
                      (bk_ticket_count bk) (bk_total_amount bk) Confirmed
                      (bk_booking_reference bk) Completed (bk_expires_at bk)
              :: rest')
       ∧ bookings d'
         = List.map (λ b, if bk_id b =? bookingId
                          then Booking (bk_id b) (bk_user_id b) (bk_event_id b)
                                       (bk_ticket_count b) (bk_total_amount b)
                                       Confirmed (bk_booking_reference b)
                                       Completed (bk_expires_at b)
                          else b)
                    (bookings d)
       ∧ payments d'
         = payments d ++ [Payment (next_payment_id d) bookingId
                                  (bk_total_amount bk) method paymentId
                                  Completed]
       ∧ events d' = events d
       ∧ users d' = users d
       ∧ ∀ paymentId' method',
           Booking.confirm_payment bookingId paymentId' method' d'
           = (Booking.Error 400 "Booking is not in pending status", d'))
  ∧ (bk_status bk ≠ Pending →
       Booking.confirm_payment bookingId paymentId method d
       = (Booking.Error 400 "Booking is not in pending status", d)).
Proof.
  intros Hsel. split.
  - intros Hpending. unfold Booking.confirm_payment. rewrite Hsel.
    rewrite Hpending. simpl.
    assert (Hsel' : select_booking bookingId (confirm_booking_row bookingId d)
                    = List.map (set_status_and_payment Confirmed Completed)
                               (bk :: rest)).
    { unfold select_booking, confirm_booking_row. simpl.
      rewrite select_booking_after_update by done.
      unfold select_booking in Hsel. by rewrite Hsel. }
    unfold insert_payment.
    rewrite (filter_cons_existsb _ _ _ _ Hsel').
    eexists. split; [reflexivity |].
    split; [eexists; exact Hsel' |]. repeat split.
    intros paymentId' method'.
    unfold select_booking in *. simpl in *. rewrite Hsel'. done.
  - intros Hother. unfold Booking.confirm_payment. rewrite Hsel.
    rewrite bool_decide_eq_false_2 by done. done.
Qed.

Lemma confirm_payment_once_witness :
  select_booking 1 Sample.reserved
    = [Booking 1 7 1 2 10000 Pending "BK1" PayPending 900000]
  ∧ ∃ d', Booking.confirm_payment 1 "PAY_1" credit_card Sample.reserved
          = (Booking.PaymentConfirmed, d')
      ∧ bookings d' = [Booking 1 7 1 2 10000 Confirmed "BK1" Completed 900000]
      ∧ payments d' = [Payment 1 1 10000 credit_card "PAY_1" Completed]
      ∧ List.map ev_available_tickets (events d') = [0]
      ∧ Booking.confirm_payment 1 "PAY_2" paypal d'
        = (Booking.Error 400 "Booking is not in pending status", d').
Proof.
  assert (Hsel : select_booking 1 Sample.reserved
                 = [Booking 1 7 1 2 10000 Pending "BK1" PayPending 900000])
    by reflexivity.
  split; [exact Hsel |].
  destruct (confirm_payment_once 1 "PAY_1" credit_card Sample.reserved _ _ Hsel)
    as [Hpending _].
  destruct (Hpending eq_refl) as (d' & Hrun & _ & Hbs & Hpay & Hev & _ & Hagain).
  exists d'. split; [exact Hrun |]. split; [exact Hbs |]. split; [exact Hpay |].
  split; [by rewrite Hev | apply Hagain].
Defined.

(** ** Cancellation *)



(** ** What each operation writes *)

(** The rows a reservation leaves in [bookings]: the old ones, followed by
    at most one new pending row with the default [payment_status]. *)
Lemma create_booking_tx_bookings (clk : Booking.create_clock)
    (bookingReference : string) (u e t : Z) (d : db) :
  let d' := snd (Booking.create_booking_tx clk bookingReference u e t d) in
  d' = d
  ∨ (∃ ev rest,
       select_active_event e d = ev :: rest
       ∧ t ≤ ev_available_tickets ev
       ∧ bookings d'
         = bookings d ++ [Booking (next_booking_id d) u e t (ev_price ev * t)
                                  Pending bookingReference PayPending
                                  (Booking.at_insert clk + reservation_window)]
       ∧ events d'
         = List.map (λ x, if ev_id x =? e then add_available (- t) x else x)
                    (events d)
       ∧ payments d' = payments d
       ∧ next_booking_id d' = next_booking_id d + 1).
Proof.
  unfold Booking.create_booking_tx.
  destruct (select_active_event e d) as [| ev evs] eqn:Hsel; [by left |].
  destruct (ev_event_date ev <=? Booking.at_check clk); [by left |].
  destruct (ev_available_tickets ev <? t) eqn:Hshort; [by left |].
  destruct (select_user_bookings u e d); [| by left].
  unfold insert_booking.
  destruct (existsb _ (users d) && existsb _ (events d) && negb _); [| by left].
  right. exists ev, evs. simpl. repeat split. lia.
Qed.

Lemma create_booking_bookings (clk : Booking.create_clock)
    (lockValue bookingReference : string) (body : Booking.create_body)
    (locks : Lock.store) (d : db) :
  let d' := snd (Booking.create_booking clk lockValue bookingReference body locks d) in
  d' = d
  ∨ (∃ u e t, body = {| Booking.userId := Js.JNum u; Booking.eventId := Js.JNum e;
                        Booking.ticketCount := Js.JNum t |}
       ∧ 1 ≤ t ≤ 10
       ∧ d' = snd (Booking.create_booking_tx clk bookingReference u e t d)).
Proof.
  unfold Booking.create_booking.
  destruct (negb _ || negb _ || negb _); [by left |].
  destruct (Js.le_num _ 0 || Js.gt_num _ 10) eqn:Hrange; [by left |].
  destruct (Lock.acquireLock _ _ _ _ _) as [[v |] locks1]; [| by left].
  destruct (Js.truthy_string v); [| by left].
  destruct body as [[| | u] [| | e] [| | t]]; simpl in *; try by left.
  right. exists u, e, t.
  unfold Js.le_num, Js.gt_num in Hrange. simpl in Hrange.
  destruct (Booking.create_booking_tx clk bookingReference u e t d).
  simpl. repeat split; lia.
Qed.

Lemma cancel_booking_db (now bookingId user : Z) (d : db) :
  let d' := snd (Booking.cancel_booking now bookingId user d) in
  d' = d
  ∨ (∃ bk rest,
       select_booking_of_user bookingId user d = bk :: rest
       ∧ bk_status bk ≠ Cancelled
       ∧ d' = add_available_tickets (bk_ticket_count bk) (bk_event_id bk)
                                    (cancel_booking_row bookingId d)).
Proof.
  unfold Booking.cancel_booking.
  destruct (select_booking_of_user bookingId user d) as [| bk rest]; [by left |].
  destruct (bool_decide (bk_status bk = Cancelled)) eqn:Hc; [by left |].
  apply bool_decide_eq_false in Hc.
  match goal with
  | |- context [match ?r with Some _ => _ | None => _ end] => destruct r
  end; [by left |].
  right. by exists bk, rest.
Qed.

Lemma confirm_payment_db (bookingId : Z) (paymentId : string)
    (method : payment_method) (d : db) :
  let d' := snd (Booking.confirm_payment bookingId paymentId method d) in
  d' = d
  ∨ (∃ bk rest,
       select_booking bookingId d = bk :: rest
       ∧ bk_status bk = Pending
       ∧ bookings d' = bookings (confirm_booking_row bookingId d)
       ∧ events d' = events d
       ∧ payments d'
         = payments d ++ [Payment (next_payment_id d) bookingId
                                  (bk_total_amount bk) method paymentId Completed]
       ∧ next_booking_id d' = next_booking_id d).
Proof.
  unfold Booking.confirm_payment.
  destruct (select_booking bookingId d) as [| bk rest]; [by left |].
  destruct (bool_decide (bk_status bk = Pending)) eqn:Hp; [| by left].
  apply bool_decide_eq_true in Hp. simpl.
  unfold insert_payment.
  destruct (existsb _ _); [| by left].
  right. by exists bk, rest.
Qed.

Lemma fold_add_available_bookings (sel : list booking) (d : db) :
  bookings (fold_left
              (λ acc b, add_available_tickets (bk_ticket_count b) (bk_event_id b) acc)
              sel d)
  = bookings d
  ∧ payments (fold_left
                (λ acc b, add_available_tickets (bk_ticket_count b) (bk_event_id b) acc)
                sel d)
    = payments d
  ∧ next_booking_id
      (fold_left
         (λ acc b, add_available_tickets (bk_ticket_count b) (bk_event_id b) acc)
         sel d)
    = next_booking_id d.
Proof.
  revert d. induction sel as [| b sel IH]; intros d; [done |].
  simpl. destruct (IH (add_available_tickets (bk_ticket_count b) (bk_event_id b) d))
    as (-> & -> & ->). done.
Qed.

Lemma cleanup_expired_bookings (now_select now_update : Z) (d : db) :
  let d' := snd (Booking.cleanup_expired now_select now_update d) in
  (select_expired now_select d = [] ∧ d' = d)
  ∨ (select_expired now_select d ≠ []
     ∧ bookings d'
       = List.map (λ b, if is_expired_pending now_update b
                        then set_status Expired b else b)
                  (bookings d)
     ∧ payments d' = payments d
     ∧ next_booking_id d' = next_booking_id d).
Proof.
  unfold Booking.cleanup_expired.
  destruct (select_expired now_select d) as [| b sel] eqn:Hsel; [by left |].
  right. split; [done |].
  cbv zeta. unfold snd, expire_bookings, with_bookings.
  cbn [bookings payments next_booking_id].
  destruct (fold_add_available_bookings (b :: sel) d) as (-> & -> & ->). done.
Qed.

(** C10. Cancelling and sweeping leave the [payment_status] of every
    booking as it was (a booking cancelled with [payment_status] completed
    keeps it), and no operation makes a [payment_status], of a booking or
    of a payment, [refunded]: a row that carries it after an operation
    carried it before. *)
Theorem payment_status_never_refunded :
  (∀ now bookingId user d,
     List.map bk_payment_status
              (bookings (snd (Booking.cancel_booking now bookingId user d)))
     = List.map bk_payment_status (bookings d))
  ∧ (∀ now_select now_update d,
       List.map bk_payment_status
                (bookings (snd (Booking.cleanup_expired now_select now_update d)))
       = List.map bk_payment_status (bookings d))
  ∧ (∀ o locks d b',
       In b' (bookings (snd (Inventory.run o locks d))) →
       bk_payment_status b' = Refunded →
       ∃ b, In b (bookings d) ∧ bk_id b = bk_id b'
            ∧ bk_payment_status b = Refunded)
  ∧ (∀ o locks d p,
       In p (payments (snd (Inventory.run o locks d))) →
       pay_status p = Refunded →
       In p (payments d)).
Proof.
  assert (Hcancel : ∀ now bookingId user d,
     List.map bk_payment_status
              (bookings (snd (Booking.cancel_booking now bookingId user d)))
     = List.map bk_payment_status (bookings d)).
  { intros now bookingId user d.
    destruct (cancel_booking_db now bookingId user d)
      as [-> | (bk & rest & _ & _ & ->)]; [done |].
    simpl. rewrite List.map_map. apply List.map_ext. intros b.
    by destruct (bk_id b =? bookingId). }
  assert (Hsweep : ∀ now_select now_update d,
     List.map bk_payment_status
              (bookings (snd (Booking.cleanup_expired now_select now_update d)))
     = List.map bk_payment_status (bookings d)).
  { intros now_select now_update d.
    destruct (cleanup_expired_bookings now_select now_update d)
      as [[_ ->] | (_ & -> & _)]; [done |].
    rewrite List.map_map. apply List.map_ext. intros b.
    by destruct (is_expired_pending now_update b). }
  assert (Hkeep : ∀ (bs bs' : list booking) b',
     List.map bk_payment_status bs' = List.map bk_payment_status bs →
     List.map bk_id bs' = List.map bk_id bs →
     In b' bs' → bk_payment_status b' = Refunded →
     ∃ b, In b bs ∧ bk_id b = bk_id b' ∧ bk_payment_status b = Refunded).
  { intros bs. induction bs as [| b bs IH]; intros [| c bs'] b' Hps Hids Hin Hr;
      try done.
    injection Hps as Hps1 Hps2. injection Hids as Hid1 Hid2.
    destruct Hin as [-> | Hin].
    - exists b. split; [by left |]. split; congruence.
    - destruct (IH bs' b' Hps2 Hid2 Hin Hr) as (b0 & H0 & H1 & H2).
      exists b0. split; [by right | done]. }
  split; [exact Hcancel |]. split; [exact Hsweep |]. split.
  - intros o locks d b' Hin Hr. destruct o as [clk lv ref body | now bid user
                                               | bid pid method | n1 n2]; simpl in Hin.
    + destruct (create_booking_bookings clk lv ref body locks d)
        as [Heq | (u & e & t & _ & _ & Heq)]; simpl in Heq; rewrite Heq in Hin.
      { exists b'. done. }
      destruct (create_booking_tx_bookings clk ref u e t d)
        as [Htx | (ev & rest & _ & _ & Htx & _)]; simpl in Htx; rewrite Htx in Hin.
      { exists b'. done. }
      apply in_app_or in Hin. destruct Hin as [Hin | [<- | []]].
      * exists b'. done.
      * discriminate.
    + destruct (Booking.cancel_booking now bid user d) as [r d'] eqn:Hrun.
      simpl in Hin. specialize (Hcancel now bid user d). rewrite Hrun in Hcancel. simpl in Hcancel.
      apply (Hkeep (bookings d) (bookings d') b'); try done.
      pose proof (cancel_booking_db now bid user d) as Hdb. rewrite Hrun in Hdb. simpl in Hdb.
      destruct Hdb as [-> | (bk & rest & _ & _ & ->)]; [done |].
      simpl. rewrite List.map_map. apply List.map_ext. intros b.
      by destruct (bk_id b =? bid).
    + destruct (Booking.confirm_payment bid pid method d) as [r d'] eqn:Hrun.
      simpl in Hin.
      pose proof (confirm_payment_db bid pid method d) as Hdb. rewrite Hrun in Hdb. simpl in Hdb.
      destruct Hdb as [-> | (bk & rest & _ & _ & Hbs & _)]; [by exists b' |].
      simpl in Hbs. rewrite Hbs in Hin. apply in_map_iff in Hin.
      destruct Hin as (b & Hb & Hin).
      destruct (bk_id b =? bid); subst b'; [discriminate | by exists b].
    + destruct (Booking.cleanup_expired n1 n2 d) as [r d'] eqn:Hrun.
      simpl in Hin. specialize (Hsweep n1 n2 d). rewrite Hrun in Hsweep. simpl in Hsweep.
      apply (Hkeep (bookings d) (bookings d') b'); try done.
      pose proof (cleanup_expired_bookings n1 n2 d) as Hdb. rewrite Hrun in Hdb. simpl in Hdb.
      destruct Hdb as [[_ ->] | (_ & -> & _)]; [done |].
      rewrite List.map_map. apply List.map_ext. intros b.
      by destruct (is_expired_pending n2 b).
  - intros o locks d p Hin Hr. destruct o as [clk lv ref body | now bid user
                                              | bid pid method | n1 n2]; simpl in Hin.
    + destruct (create_booking_bookings clk lv ref body locks d)
        as [Heq | (u & e & t & _ & _ & Heq)]; simpl in Heq; rewrite Heq in Hin.
      { done. }
      destruct (create_booking_tx_bookings clk ref u e t d)
        as [Htx | (ev & rest & _ & _ & _ & _ & Htx & _)]; simpl in Htx;
        by rewrite Htx in Hin.
    + destruct (Booking.cancel_booking now bid user d) as [r d'] eqn:Hrun.
      pose proof (cancel_booking_db now bid user d) as Hdb. rewrite Hrun in Hdb. simpl in Hdb.
      simpl in Hin. by destruct Hdb as [-> | (bk & rest & _ & _ & ->)].
    + destruct (Booking.confirm_payment bid pid method d) as [r d'] eqn:Hrun.
      pose proof (confirm_payment_db bid pid method d) as Hdb. rewrite Hrun in Hdb. simpl in Hdb.
      simpl in Hin.
      destruct Hdb as [-> | (bk & rest & _ & _ & _ & _ & Hpay & _)]; [done |].
      simpl in Hpay. rewrite Hpay in Hin. apply in_app_or in Hin.
      destruct Hin as [Hin | [<- | []]]; [done | discriminate].
    + destruct (Booking.cleanup_expired n1 n2 d) as [r d'] eqn:Hrun.
      pose proof (cleanup_expired_bookings n1 n2 d) as Hdb. rewrite Hrun in Hdb. simpl in Hdb.
      simpl in Hin. destruct Hdb as [[_ ->] | (_ & _ & Hpay & _)]; [done |].
      simpl in Hpay. by rewrite Hpay in Hin.
Qed.

Lemma payment_status_never_refunded_witness :
  In (Booking 1 7 1 2 10000 Cancelled "BK1" Refunded 900000)
     (bookings (snd (Inventory.run (Inventory.Cancel 0 1 7) ∅ Sample.refunded)))
  ∧ ∃ b, In b (bookings Sample.refunded) ∧ bk_id b = 1
         ∧ bk_payment_status b = Refunded.
Proof.
  assert (Hin : In (Booking 1 7 1 2 10000 Cancelled "BK1" Refunded 900000)
                   (bookings (snd (Inventory.run (Inventory.Cancel 0 1 7) ∅
                                                 Sample.refunded))))
    by (left; reflexivity).
  split; [exact Hin |].
  destruct payment_status_never_refunded as (_ & _ & Hkeep & _).
  exact (Hkeep (Inventory.Cancel 0 1 7) ∅ Sample.refunded _ Hin eq_refl).
Defined.

(** ** The booking state machine *)

Lemma unique_booking_id (bs : list booking) (b1 b2 : booking) :
  List.NoDup (List.map bk_id bs) → In b1 bs → In b2 bs → bk_id b1 = bk_id b2 → b1 = b2.
Proof.
  induction bs as [| b bs IH]; [done |].
  simpl. intros Hnd [-> | H1] [-> | H2] Hid; inversion Hnd as [| ? ? Hnotin Hnd']; subst.
  - done.
  - exfalso. apply Hnotin. rewrite Hid. by apply in_map.
  - exfalso. apply Hnotin. rewrite <- Hid. by apply in_map.
  - by apply IH.
Qed.

(** Every operation rewrites the existing bookings in place, keeping their
    ids, and appends only pending ones.  The status of an existing booking
    is kept or moves along a transition of the state machine, with one
    exception: a cancellation also takes an expired booking to cancelled. *)
Lemma run_transitions (o : Inventory.operation) (locks : Lock.store) (d : db) :
  Inventory.unique_booking_ids d →
  ∃ (g : booking → booking) (added : list booking),
    bookings (snd (Inventory.run o locks d)) = List.map g (bookings d) ++ added
    ∧ Forall (λ r, bk_status r = Pending) added
    ∧ ∀ b, In b (bookings d) →
        bk_id (g b) = bk_id b
        ∧ (bk_status (g b) = bk_status b
           ∨ Inventory.legal_transition (bk_status b) (bk_status (g b)) = true
           ∨ (bk_status b = Expired ∧ bk_status (g b) = Cancelled
              ∧ ∃ now bookingId user, o = Inventory.Cancel now bookingId user)).
Proof.
  intros Huniq.
  assert (Hsame : ∀ d', d' = d →
    ∃ (g : booking → booking) (added : list booking),
      bookings d' = List.map g (bookings d) ++ added
      ∧ Forall (λ r, bk_status r = Pending) added
      ∧ ∀ b, In b (bookings d) →
          bk_id (g b) = bk_id b
          ∧ (bk_status (g b) = bk_status b
             ∨ Inventory.legal_transition (bk_status b) (bk_status (g b)) = true
             ∨ (bk_status b = Expired ∧ bk_status (g b) = Cancelled
                ∧ ∃ now bookingId user, o = Inventory.Cancel now bookingId user))).
  { intros d' ->. exists (λ b, b), []. rewrite List.map_id, app_nil_r.
    split; [done |]. split; [constructor |]. intros b _. split; [done | by left]. }
  destruct o as [clk lv ref body | now bid user | bid pid method | n1 n2]; simpl.
  - destruct (create_booking_bookings clk lv ref body locks d)
      as [Heq | (u & e & t & _ & _ & Heq)]; simpl in Heq; rewrite Heq;
      [by apply Hsame |].
    destruct (create_booking_tx_bookings clk ref u e t d)
      as [Htx | (ev & rest & _ & _ & Htx & _)]; simpl in Htx;
      [by apply Hsame |].
    rewrite Htx. exists (λ b, b). eexists. rewrite List.map_id.
    split; [reflexivity |]. split; [by repeat constructor |].
    intros b _. split; [done | by left].
  - destruct (Booking.cancel_booking now bid user d) as [r d'] eqn:Hrun.
    pose proof (cancel_booking_db now bid user d) as Hdb. rewrite Hrun in Hdb.
    simpl in Hdb. simpl.
    destruct Hdb as [Heq | (bk & rest & Hsel & Hnc & ->)]; [by apply Hsame |].
    exists (λ b, if bk_id b =? bid then set_status Cancelled b else b), [].
    rewrite app_nil_r. split; [done |]. split; [constructor |].
    intros b Hb. destruct (bk_id b =? bid) eqn:Hid; [| split; [done | by left]].
    split; [done |].
    assert (Hbk : In bk (bookings d) ∧ bk_id bk = bid).
    { assert (Hin : In bk (select_booking_of_user bid user d))
        by (rewrite Hsel; by left).
      apply filter_In in Hin. destruct Hin as [Hin Hcond]. split; [done | lia]. }
    assert (b = bk) as ->.
    { apply (unique_booking_id (bookings d)); try done; [apply Hbk | lia]. }
    simpl. destruct (bk_status bk) eqn:Hst; try done.
    + right. by left.
    + right. by left.
    + right. right. repeat split. by exists now, bid, user.
  - destruct (Booking.confirm_payment bid pid method d) as [r d'] eqn:Hrun.
    pose proof (confirm_payment_db bid pid method d) as Hdb. rewrite Hrun in Hdb.
    simpl in Hdb. simpl.
    destruct Hdb as [Heq | (bk & rest & Hsel & Hp & Hbs & _)]; [by apply Hsame |].
    rewrite Hbs.
    exists (λ b, if bk_id b =? bid
                 then set_status_and_payment Confirmed Completed b else b), [].
    rewrite app_nil_r. split; [done |]. split; [constructor |].
    intros b Hb. destruct (bk_id b =? bid) eqn:Hid; [| split; [done | by left]].
    split; [done |].
    assert (Hbk : In bk (bookings d) ∧ bk_id bk = bid).
    { assert (Hin : In bk (select_booking bid d)) by (rewrite Hsel; by left).
      apply filter_In in Hin. destruct Hin as [Hin Hcond]. split; [done | lia]. }
    assert (b = bk) as ->.
    { apply (unique_booking_id (bookings d)); try done; [apply Hbk | lia]. }
    simpl. rewrite Hp. right. by left.
  - destruct (Booking.cleanup_expired n1 n2 d) as [r d'] eqn:Hrun.
    pose proof (cleanup_expired_bookings n1 n2 d) as Hdb. rewrite Hrun in Hdb.
    simpl in Hdb. simpl.
    destruct Hdb as [[_ Heq] | (_ & Hbs & _)]; [by apply Hsame |].
    rewrite Hbs.
    exists (λ b, if is_expired_pending n2 b then set_status Expired b else b), [].
    rewrite app_nil_r. split; [done |]. split; [constructor |].
    intros b Hb. unfold is_expired_pending.
    destruct (bool_decide (bk_status b = Pending)) eqn:Hp; simpl;
      [| split; [done | by left]].
    apply bool_decide_eq_true in Hp.
    destruct (bk_expires_at b <? n2); [| split; [done | by left]].
    split; [done |]. simpl. rewrite Hp. right. by left.
Qed.

(** A cancellation by its owner of a booking that has expired goes
    through: the booking becomes cancelled and its tickets are added to the
    event a second time. *)
Lemma cancel_booking_of_expired (now bookingId user : Z) (d : db)
    (bk : booking) (rest : list booking) :
  select_booking_of_user bookingId user d = bk :: rest →
  bk_status bk = Expired →
  Booking.cancel_booking now bookingId user d
  = (Booking.BookingCancelled bookingId
       (if bool_decide (bk_payment_status bk = Completed)
        then bk_total_amount bk else 0),
     add_available_tickets (bk_ticket_count bk) (bk_event_id bk)
                           (cancel_booking_row bookingId d)).
Proof.
  intros Hsel Hst. unfold Booking.cancel_booking. rewrite Hsel, Hst. done.
Qed.

(** C2, at the input on which the code departs from it.  User 7 reserves
    the two tickets of event 1 and lets the reservation expire; the sweep
    marks it expired and gives the tickets back.  The user's cancellation of
    that expired booking is then accepted: the status goes from expired to
    cancelled, which is not a transition of the state machine, and
    [available_tickets] goes from 2 to 4.  The confirmation of the same
    expired booking is refused and changes nothing. *)
Theorem cancel_booking_accepts_expired :
  List.map bk_status (bookings Sample.swept) = [Expired]
  ∧ List.map ev_available_tickets (events Sample.swept) = [2]
  ∧ fst (Booking.cancel_booking (reservation_window + 2) 1 7 Sample.swept)
    = Booking.BookingCancelled 1 0
  ∧ List.map bk_status
      (bookings (snd (Booking.cancel_booking (reservation_window + 2) 1 7
                                             Sample.swept)))
    = [Cancelled]
  ∧ List.map ev_available_tickets
      (events (snd (Booking.cancel_booking (reservation_window + 2) 1 7
                                           Sample.swept)))
    = [4]
  ∧ Inventory.legal_transition Expired Cancelled = false
  ∧ Booking.confirm_payment 1 "PAY_1" credit_card Sample.swept
    = (Booking.Error 400 "Booking is not in pending status", Sample.swept).
Proof. vm_compute. repeat split. Qed.

(** ** The expiry sweep *)

Lemma add_available_0 (e : event) : add_available 0 e = e.
Proof. destruct e. unfold add_available. simpl. f_equal. lia. Qed.

Lemma add_available_add (n m : Z) (e : event) :
  add_available n (add_available m e) = add_available (m + n) e.
Proof. destruct e. unfold add_available. simpl. f_equal. lia. Qed.

(** The loop of the sweep adds to each event the tickets of the selected
    bookings of that event. *)
Lemma fold_add_available_events (sel : list booking) (d : db) :
  events (fold_left
            (λ acc b, add_available_tickets (bk_ticket_count b) (bk_event_id b) acc)
            sel d)
  = List.map (λ e, add_available (Inventory.restored_to (ev_id e) sel) e) (events d).
Proof.
  revert d. induction sel as [| b sel IH]; intros d; simpl.
  - rewrite <- (List.map_id (events d)) at 1. apply List.map_ext.
    intros e. by rewrite add_available_0.
  - rewrite IH. simpl. rewrite List.map_map. apply List.map_ext. intros e.
    rewrite (Z.eqb_sym (bk_event_id b) (ev_id e)).
    destruct (ev_id e =? bk_event_id b) eqn:Hid.
    + by rewrite add_available_add.
    + done.
Qed.

Lemma map_if_filter_nil {A : Type} (p : A → bool) (f : A → A) (l : list A) :
  List.filter p l = [] → List.map (λ x, if p x then f x else x) l = l.
Proof.
  induction l as [| x l IH]; [done |]. simpl.
  destruct (p x); [discriminate |]. intros H. by rewrite IH.
Qed.

(** What a sweep does, with the clock read at the [SELECT] and at the
    [UPDATE]: the count and the tickets given back are those of the
    bookings selected at [now_select]; the bookings marked expired are those
    pending with [expires_at < now_update], unless nothing was selected. *)
Lemma cleanup_expired_effect (now_select now_update : Z) (d : db) :
  let sel := select_expired now_select d in
  let out := Booking.cleanup_expired now_select now_update d in
  (sel = [] → out = (Booking.CleanupDone "No expired bookings found" 0, d))
  ∧ (sel ≠ [] →
       fst out = Booking.CleanupDone "Expired bookings cleaned up successfully"
                                     (length sel)
       ∧ bookings (snd out)
         = List.map (λ b, if is_expired_pending now_update b
                          then set_status Expired b else b) (bookings d)
       ∧ events (snd out)
         = List.map (λ e, add_available (Inventory.restored_to (ev_id e) sel) e)
                    (events d)
       ∧ payments (snd out) = payments d).
Proof.
  simpl. unfold Booking.cleanup_expired.
  destruct (select_expired now_select d) as [| b sel] eqn:Hsel.
  - split; [done | by intros []].
  - split; [discriminate |]. intros _.
    cbv zeta. unfold fst, snd, expire_bookings, with_bookings.
    cbn [bookings events payments].
    destruct (fold_add_available_bookings (b :: sel) d) as (-> & -> & _).
    rewrite (fold_add_available_events (b :: sel) d). done.
Qed.

(** When the clock reads the same at both statements of the sweep, the
    bookings marked expired are exactly the selected ones: the pending
    bookings with [expires_at] in the past.  Each of them gives its tickets
    back once, their number is the count, and without any such booking the
    sweep changes nothing and counts 0. *)
Lemma cleanup_expired_same_clock (now : Z) (d : db) :
  let sel := select_expired now d in
  let out := Booking.cleanup_expired now now d in
  (∃ msg, fst out = Booking.CleanupDone msg (length sel))
  ∧ bookings (snd out)
    = List.map (λ b, if is_expired_pending now b then set_status Expired b else b)
               (bookings d)
  ∧ events (snd out)
    = List.map (λ e, add_available (Inventory.restored_to (ev_id e) sel) e)
               (events d)
  ∧ select_expired now (snd out) = []
  ∧ (sel = [] → out = (Booking.CleanupDone "No expired bookings found" 0, d)).
Proof.
  simpl.
  destruct (cleanup_expired_effect now now d) as [Hnone Hsome]. simpl in *.
  assert (Hafter : ∀ bs,
    List.filter (is_expired_pending now)
      (List.map (λ b, if is_expired_pending now b then set_status Expired b else b) bs)
    = []).
  { induction bs as [| b bs IH]; [done |]. simpl.
    destruct (is_expired_pending now b) eqn:Hb; simpl.
    - unfold is_expired_pending at 1. simpl. exact IH.
    - rewrite Hb. exact IH. }
  destruct (select_expired now d) as [| b sel] eqn:Hsel.
  - rewrite (Hnone eq_refl). simpl. split; [by eexists |].
    split; [by rewrite map_if_filter_nil |].
    split.
    { rewrite <- (List.map_id (events d)) at 1. apply List.map_ext.
      intros e. by rewrite add_available_0. }
    split; [exact Hsel | done].
  - destruct Hsome as (Hr & Hbs & Hev & _); [discriminate |].
    split; [by eexists |]. split; [exact Hbs |]. split; [exact Hev |].
    split; [| discriminate].
    unfold select_expired. rewrite Hbs. apply Hafter.
Qed.

(** C3, at the input on which the code departs from it.  Bookings 1 and 2
    are pending and expire at 5 and at 10.  The sweep's [SELECT] reads the
    clock at 10 and selects booking 1 only; its [UPDATE] reads the clock at
    11 and marks both bookings expired.  The count is 1 and one ticket goes
    back to the event; the two tickets of booking 2 are lost: afterwards no
    booking holds a ticket and the event has 3 of its 5 tickets available. *)
Theorem cleanup_expired_marks_unselected :
  List.map bk_id (select_expired 10 Sample.two_pending) = [1]
  ∧ List.map bk_id (select_expired 11 Sample.two_pending) = [1; 2]
  ∧ Inventory.invariantb Sample.two_pending = true
  ∧ fst (Booking.cleanup_expired 10 11 Sample.two_pending)
    = Booking.CleanupDone "Expired bookings cleaned up successfully" 1
  ∧ List.map bk_status (bookings (snd (Booking.cleanup_expired 10 11 Sample.two_pending)))
    = [Expired; Expired]
  ∧ List.map (λ e, (ev_total_tickets e, ev_available_tickets e))
             (events (snd (Booking.cleanup_expired 10 11 Sample.two_pending)))
    = [(5, 3)]
  ∧ Inventory.invariantb (snd (Booking.cleanup_expired 10 11 Sample.two_pending))
    = false.
Proof. vm_compute. repeat split. Qed.

(** ** The inventory invariant *)

Section InventoryInvariant.

Import Inventory.

Lemma reserved_tickets_app (eventId : Z) (l1 l2 : list booking) :
  reserved_tickets eventId (l1 ++ l2)
  = reserved_tickets eventId l1 + reserved_tickets eventId l2.
Proof. induction l1 as [| b l1 IH]; simpl; [done | rewrite IH; lia]. Qed.

Lemma reserved_tickets_map_same (eventId : Z) (g : booking → booking)
    (bs : list booking) :
  (∀ b, In b bs → held_by eventId (g b) = held_by eventId b) →
  reserved_tickets eventId (List.map g bs) = reserved_tickets eventId bs.
Proof.
  induction bs as [| b bs IH]; [done |]. intros Hg. simpl.
  rewrite Hg by (by left). rewrite IH; [done |].
  intros b' Hb'. apply Hg. by right.
Qed.

(** Rewriting the one row of id [bk_id bk] so that it holds nothing lowers
    the reserved tickets by what the row held. *)
Lemma reserved_tickets_release (eventId : Z) (f : booking → booking)
    (bk : booking) (bs : list booking) :
  List.NoDup (List.map bk_id bs) → In bk bs →
  held_by eventId (f bk) = 0 →
  reserved_tickets eventId
    (List.map (λ b, if bk_id b =? bk_id bk then f b else b) bs)
  = reserved_tickets eventId bs - held_by eventId bk.
Proof.
  intros Hnd Hin Hzero.
  induction bs as [| b bs IH]; [done |].
  inversion Hnd as [| ? ? Hnotin Hnd']; subst. simpl.
  destruct Hin as [-> | Hin].
  - rewrite Z.eqb_refl, Hzero.
    rewrite reserved_tickets_map_same; [lia |].
    intros b Hb. destruct (bk_id b =? bk_id bk) eqn:Hid; [| done].
    exfalso. apply Hnotin. replace (bk_id bk) with (bk_id b) by lia.
    by apply in_map.
  - destruct (bk_id b =? bk_id bk) eqn:Hid.
    + exfalso. apply Hnotin. replace (bk_id b) with (bk_id bk) by lia.
      by apply in_map.
    + rewrite IH by done. lia.
Qed.

(** Marking the expired pending rows lowers the reserved tickets by what
    the selected rows give back. *)
Lemma reserved_tickets_expire (eventId now : Z) (bs : list booking) :
  reserved_tickets eventId
    (List.map (λ b, if is_expired_pending now b then set_status Expired b else b) bs)
  = reserved_tickets eventId bs
    - restored_to eventId (List.filter (is_expired_pending now) bs).
Proof.
  induction bs as [| b bs IH]; [done |]. simpl.
  destruct (is_expired_pending now b) eqn:Hexp; simpl; rewrite IH.
  - unfold is_expired_pending in Hexp. apply andb_true_iff in Hexp.
    destruct Hexp as [Hp _]. apply bool_decide_eq_true in Hp.
    unfold held_by. simpl. rewrite Hp. simpl.
    rewrite andb_false_r, andb_true_r.
    destruct (bk_event_id b =? eventId); lia.
  - lia.
Qed.

(** An operation that maps the events by [h], keeping ids and totals, and
    moves for each event as many tickets into [available_tickets] as it
    takes out of the reserved ones, keeps the invariant. *)
Lemma invariant_step (d d' : db) (h : event → event) :
  events d' = List.map h (events d) →
  (∀ e, In e (events d) →
     ev_id (h e) = ev_id e
     ∧ ev_total_tickets (h e) = ev_total_tickets e
     ∧ ev_available_tickets (h e) + reserved_tickets (ev_id e) (bookings d')
       = ev_available_tickets e + reserved_tickets (ev_id e) (bookings d)) →
  invariant d → invariant d'.
Proof.
  unfold invariant, balanced. intros Hev Hstep Hinv.
  rewrite Hev. apply List.Forall_map. rewrite List.Forall_forall in *.
  intros e He. destruct (Hstep e He) as (Hid & Htot & Hbal).
  rewrite Hid, Htot, Hbal. by apply Hinv.
Qed.

Lemma create_booking_tx_preserves_invariant (clk : Booking.create_clock)
    (bookingReference : string) (u e t : Z) (d : db) :
  invariant d →
  invariant (snd (Booking.create_booking_tx clk bookingReference u e t d)).
Proof.
  intros Hinv.
  destruct (create_booking_tx_bookings clk bookingReference u e t d)
    as [Heq | (ev & rest & _ & _ & Hbs & Hev & _)]; simpl in *.
  { by rewrite Heq. }
  eapply invariant_step; [exact Hev | | exact Hinv].
  intros x Hx. rewrite Hbs, reserved_tickets_app. simpl.
  unfold held_by. simpl. rewrite (Z.eqb_sym e (ev_id x)).
  destruct (ev_id x =? e) eqn:Hid; simpl; repeat split; lia.
Qed.

(** A reservation keeps the invariant. *)
Lemma create_booking_preserves_invariant (clk : Booking.create_clock)
    (lockValue bookingReference : string) (body : Booking.create_body)
    (locks : Lock.store) (d : db) :
  invariant d →
  invariant (snd (Booking.create_booking clk lockValue bookingReference body locks d)).
Proof.
  intros Hinv.
  destruct (create_booking_bookings clk lockValue bookingReference body locks d)
    as [Heq | (u & e & t & _ & _ & Heq)]; simpl in Heq; rewrite Heq;
    [done | by apply create_booking_tx_preserves_invariant].
Qed.

(** A confirmation keeps the invariant. *)
Lemma confirm_payment_preserves_invariant (bookingId : Z) (paymentId : string)
    (method : payment_method) (d : db) :
  unique_booking_ids d → invariant d →
  invariant (snd (Booking.confirm_payment bookingId paymentId method d)).
Proof.
  intros Huniq Hinv.
  destruct (confirm_payment_db bookingId paymentId method d)
    as [Heq | (bk & rest & Hsel & Hp & Hbs & Hev & _)]; simpl in *.
  { by rewrite Heq. }
  apply (invariant_step d _ (λ e, e)); [by rewrite List.map_id | | done].
  intros e He. repeat split. f_equal. rewrite Hbs. simpl.
  apply reserved_tickets_map_same. intros b Hb.
  destruct (bk_id b =? bookingId) eqn:Hid; [| done].
  assert (Hbk : In bk (bookings d) ∧ bk_id bk = bookingId).
  { assert (Hin : In bk (select_booking bookingId d)) by (rewrite Hsel; by left).
    apply filter_In in Hin. destruct Hin as [Hin Hcond]. split; [done | lia]. }
  assert (b = bk) as ->.
  { apply (unique_booking_id (bookings d)); try done; [apply Hbk | lia]. }
  unfold held_by. simpl. by rewrite Hp.
Qed.

(** A cancellation keeps the invariant when the booking it finds holds
    tickets, that is, when it is pending or confirmed. *)
Lemma cancel_booking_preserves_invariant (now bookingId user : Z) (d : db) :
  unique_booking_ids d → invariant d →
  (∀ bk rest, select_booking_of_user bookingId user d = bk :: rest →
              bk_status bk ≠ Expired) →
  invariant (snd (Booking.cancel_booking now bookingId user d)).
Proof.
  intros Huniq Hinv Hlive.
  destruct (cancel_booking_db now bookingId user d)
    as [Heq | (bk & rest & Hsel & Hnc & Heq)]; simpl in *; rewrite Heq;
    [done |].
  specialize (Hlive bk rest Hsel).
  assert (Hbk : In bk (bookings d) ∧ bk_id bk = bookingId).
  { assert (Hin : In bk (select_booking_of_user bookingId user d))
      by (rewrite Hsel; by left).
    apply filter_In in Hin. destruct Hin as [Hin Hcond]. split; [done | lia]. }
  destruct Hbk as [Hin Hid].
  apply (invariant_step d _
           (λ e, if ev_id e =? bk_event_id bk
                 then add_available (bk_ticket_count bk) e else e));
    [reflexivity | | exact Hinv].
  intros e He. simpl. rewrite <- Hid.
  rewrite (reserved_tickets_release (ev_id e) (set_status Cancelled) bk) by
    (try done; unfold held_by; simpl; by rewrite andb_false_r).
  assert (Hholds : holds_tickets (bk_status bk) = true)
    by (destruct (bk_status bk); done).
  unfold held_by. rewrite Hholds, andb_true_r.
  rewrite (Z.eqb_sym (bk_event_id bk) (ev_id e)).
  destruct (ev_id e =? bk_event_id bk); simpl; repeat split; lia.
Qed.

(** A sweep keeps the invariant when its two statements read the same
    clock. *)
Lemma cleanup_expired_preserves_invariant (now : Z) (d : db) :
  invariant d → invariant (snd (Booking.cleanup_expired now now d)).
Proof.
  intros Hinv.
  destruct (cleanup_expired_same_clock now d) as (_ & Hbs & Hev & _).
  simpl in *.
  eapply invariant_step; [exact Hev | | exact Hinv].
  intros e He. simpl. rewrite Hbs, reserved_tickets_expire.
  unfold select_expired. repeat split. lia.
Qed.

Lemma invariantb_spec (d : db) : invariantb d = true ↔ invariant d.
Proof.
  unfold invariantb, invariant, balanced.
  rewrite forallb_forall, List.Forall_forall.
  split; intros H e He; specialize (H e He); lia.
Qed.

Lemma well_formed_same_ids (d d' : db) :
  List.map bk_id (bookings d') = List.map bk_id (bookings d) →
  next_booking_id d' = next_booking_id d →
  well_formed d → well_formed d'.
Proof.
  unfold well_formed, unique_booking_ids. intros Hids Hnext [Hnd Hlt].
  rewrite Hids, Hnext. split; [done |].
  rewrite <- (List.Forall_map bk_id (λ i, i < next_booking_id d)) in *.
  by rewrite Hids.
Qed.

(** Every operation keeps the primary keys of [bookings] distinct and below
    the counter. *)
Lemma run_preserves_well_formed (o : operation) (locks : Lock.store) (d : db) :
  well_formed d → well_formed (snd (run o locks d)).
Proof.
  intros Hwf.
  destruct o as [clk lv ref body | now bid user | bid pid method | n1 n2]; simpl.
  - destruct (create_booking_bookings clk lv ref body locks d)
      as [Heq | (u & e & t & _ & _ & Heq)]; simpl in Heq; rewrite Heq; [done |].
    destruct (create_booking_tx_bookings clk ref u e t d)
      as [Htx | (ev & rest & _ & _ & Hbs & _ & _ & Hnext)]; simpl in *;
      [by rewrite Htx |].
    destruct Hwf as [Hnd Hlt]. unfold well_formed, unique_booking_ids.
    rewrite Hbs, Hnext, List.map_app. simpl. split.
    + apply List.NoDup_app; [done | repeat constructor; simpl; tauto |].
      intros i Hin [<- | []]. apply in_map_iff in Hin.
      destruct Hin as (b & Hid & Hb).
      rewrite List.Forall_forall in Hlt. specialize (Hlt b Hb). lia.
    + apply Forall_app. split.
      * eapply List.Forall_impl; [| exact Hlt]. simpl. intros; lia.
      * repeat constructor. simpl. lia.
  - destruct (Booking.cancel_booking now bid user d) as [r d'] eqn:Hrun.
    pose proof (cancel_booking_db now bid user d) as Hdb. rewrite Hrun in Hdb.
    simpl in Hdb. simpl.
    destruct Hdb as [-> | (bk & rest & _ & _ & ->)]; [done |].
    apply (well_formed_same_ids d); [| done | done].
    simpl. rewrite List.map_map. apply List.map_ext. intros b.
    by destruct (bk_id b =? bid).
  - destruct (Booking.confirm_payment bid pid method d) as [r d'] eqn:Hrun.
    pose proof (confirm_payment_db bid pid method d) as Hdb. rewrite Hrun in Hdb.
    simpl in Hdb. simpl.
    destruct Hdb as [-> | (bk & rest & _ & _ & Hbs & _ & _ & Hnext)]; [done |].
    apply (well_formed_same_ids d); [| done | done].
    rewrite Hbs. simpl. rewrite List.map_map. apply List.map_ext. intros b.
    by destruct (bk_id b =? bid).
  - destruct (Booking.cleanup_expired n1 n2 d) as [r d'] eqn:Hrun.
    pose proof (cleanup_expired_bookings n1 n2 d) as Hdb. rewrite Hrun in Hdb.
    simpl in Hdb. simpl.
    destruct Hdb as [[_ ->] | (_ & Hbs & _ & Hnext)]; [done |].
    apply (well_formed_same_ids d); [| done | done].
    rewrite Hbs. rewrite List.map_map. apply List.map_ext. intros b.
    by destruct (is_expired_pending n2 b).
Qed.

(** Every regular operation keeps the inventory invariant. *)
Lemma run_preserves_invariant (o : operation) (locks : Lock.store) (d : db) :
  well_formed d → invariant d → regular o d →
  invariant (snd (run o locks d)).
Proof.
  intros [Huniq _] Hinv Hreg.
  destruct o as [clk lv ref body | now bid user | bid pid method | n1 n2]; simpl.
  - by apply create_booking_preserves_invariant.
  - pose proof (cancel_booking_preserves_invariant now bid user d Huniq Hinv Hreg)
      as H.
    by destruct (Booking.cancel_booking now bid user d).
  - pose proof (confirm_payment_preserves_invariant bid pid method d Huniq Hinv)
      as H.
    by destruct (Booking.confirm_payment bid pid method d).
  - simpl in Hreg. subst n2.
    pose proof (cleanup_expired_preserves_invariant n1 d Hinv) as H.
    by destruct (Booking.cleanup_expired n1 n1 d).
Qed.

End InventoryInvariant.

Lemma run_preserves_invariant_example :
  Inventory.invariant Sample.paid
  ∧ Inventory.invariant
      (snd (Inventory.run (Inventory.Cancel 0 1 7) ∅ Sample.paid)).
Proof.
  assert (Hinv : Inventory.invariant Sample.paid)
    by (apply invariantb_spec; reflexivity).
  split; [exact Hinv |].
  apply run_preserves_invariant; [| exact Hinv |].
  - split; [repeat constructor; simpl; tauto | repeat constructor].
  - intros bk rest Hsel. vm_compute in Hsel. injection Hsel as <- _.
    discriminate.
Defined.

(** C1, at the input on which the code departs from it.  The invariant
    holds of the fresh database, after user 7 has reserved the two tickets
    of event 1, and after the sweep has expired that reservation.  The
    user's cancellation of the expired booking then completes, gives the two
    tickets back a second time, and the invariant fails: no booking holds a
    ticket and the event has 4 of its 2 tickets available. *)
Theorem cancel_of_expired_breaks_invariant :
  Inventory.invariant Sample.fresh
  ∧ Inventory.invariant Sample.reserved
  ∧ Inventory.invariant Sample.swept
  ∧ fst (Booking.cancel_booking (reservation_window + 2) 1 7 Sample.swept)
    = Booking.BookingCancelled 1 0
  ∧ List.map (λ e, (ev_total_tickets e, ev_available_tickets e,
                    Inventory.reserved_tickets (ev_id e)
                      (bookings (snd (Booking.cancel_booking
                                        (reservation_window + 2) 1 7 Sample.swept)))))
             (events (snd (Booking.cancel_booking (reservation_window + 2) 1 7
                                                  Sample.swept)))
    = [(2, 4, 0)]
  ∧ ¬ Inventory.invariant
        (snd (Booking.cancel_booking (reservation_window + 2) 1 7 Sample.swept)).
Proof.
  repeat split; try (apply invariantb_spec; reflexivity).
  rewrite <- invariantb_spec. vm_compute. discriminate.
Qed.

(** ** The retry policy of the payment worker *)

Section RetryPolicy.

Import Worker.

Lemma retryCount_absent (m : message) :
  headers m = None ∨ (∃ h, headers m = Some h ∧ h !! "retryCount" = None) →
  retryCount m = 0.
Proof.
  unfold retryCount. intros [-> | (h & -> & ->)]; reflexivity.
Qed.

Lemma retryCount_stored (data : payment_data) (n : Z) :
  retryCount {| content := data;
                headers := Some {[ "retryCount" := Js.JNum n ]} |} = n.
Proof.
  unfold retryCount. simpl. rewrite lookup_singleton_eq. simpl.
  unfold Js.or_else. simpl. destruct (n =? 0) eqn:Hn; simpl; lia.
Qed.

Lemma republished_retry (m : message) :
  retryCount m < 3 →
  republished (on_processing_error m)
  = [(5000 * (retryCount m + 1),
      {| content := content m;
         headers := Some {[ "retryCount" := Js.JNum (retryCount m + 1) ]} |})].
Proof.
  intros Hlt. unfold on_processing_error.
  assert (Hb : (retryCount m <? 3) = true) by lia. rewrite Hb.
  reflexivity.
Qed.

Lemma republished_drop (m : message) :
  3 ≤ retryCount m → republished (on_processing_error m) = [].
Proof.
  intros Hge. unfold on_processing_error.
  assert (Hb : (retryCount m <? 3) = false) by lia. by rewrite Hb.
Qed.

(** A message whose every processing raises is delivered at most
    [max 1 (4 - retryCount)] times. *)
Lemma failing_deliveries_bound (fuel : nat) (m : message) :
  Z.of_nat (length (failing_deliveries fuel m)) ≤ Z.max 1 (4 - retryCount m).
Proof.
  revert m. induction fuel as [| fuel IH]; intros m; simpl; [lia |].
  destruct (Z.lt_ge_cases (retryCount m) 3) as [Hlt | Hge].
  - rewrite (republished_retry m Hlt). simpl. rewrite app_nil_r.
    match goal with |- context [failing_deliveries fuel ?m'] =>
      specialize (IH m'); rewrite retryCount_stored in IH end.
    lia.
  - rewrite (republished_drop m Hge). simpl. lia.
Qed.

(** With enough fuel the deliveries are all followed: there are exactly
    [4 - retryCount] of them. *)
Lemma failing_deliveries_exact (fuel : nat) (m : message) :
  retryCount m ≤ 3 → 4 - retryCount m ≤ Z.of_nat fuel →
  Z.of_nat (length (failing_deliveries fuel m)) = 4 - retryCount m.
Proof.
  revert m. induction fuel as [| fuel IH]; intros m Hle Hfuel; [lia |].
  simpl failing_deliveries.
  destruct (Z.lt_ge_cases (retryCount m) 3) as [Hlt | Hge].
  - rewrite (republished_retry m Hlt). simpl. rewrite app_nil_r.
    match goal with |- context [failing_deliveries fuel ?m'] =>
      specialize (IH m'); rewrite retryCount_stored in IH end.
    lia.
  - rewrite (republished_drop m Hge). simpl. lia.
Qed.

End RetryPolicy.

(** C7. When the processing of a message raises, the worker runs its
    [catch] block.  The retry counter read there is 0 when the headers or
    the counter are absent.  With a counter below 3 the block schedules,
    after 5000 ms times the counter plus one, the republication of the same
    content with the counter plus one followed by the acknowledgement of
    the original message; with a counter of 3 or more it acknowledges and
    republishes nothing.  A message that starts from a counter of 0 (or any
    counter that is not negative) is therefore processed at most 4 times,
    and exactly 4 times when the counter starts at 0 and every processing
    raises. *)
Theorem processing_error_retry_policy (m : Worker.message) :
  (Worker.headers m = None
   ∨ (∃ h, Worker.headers m = Some h ∧ h !! "retryCount" = None) →
     Worker.retryCount m = 0)
  ∧ (∀ now gw d,
       fst (Worker.processPayment now gw false (Some m) d) = Worker.on_processing_error m
       ∧ snd (Worker.processPayment now gw false (Some m) d) = d)
  ∧ (∀ now gw d,
       fst (Worker.processPayment now gw true (Some m) d) = Worker.on_processing_error m
       ∨ ∃ body, fst (Worker.processPayment now gw true (Some m) d)
                 = [Worker.Now (Worker.SendToQueue "payment_results" body None);
                    Worker.Now (Worker.Ack m)])
  ∧ (Worker.retryCount m < 3 →
       Worker.on_processing_error m
       = [Worker.SetTimeout (5000 * (Worker.retryCount m + 1))
            [Worker.SendToQueue "payment_processing"
               (Worker.PaymentRequest (Worker.content m))
               (Some {[ "retryCount" := Js.JNum (Worker.retryCount m + 1) ]});
             Worker.Ack m]]
       ∧ ∃ m', Worker.republished (Worker.on_processing_error m)
               = [(5000 * (Worker.retryCount m + 1), m')]
             ∧ Worker.content m' = Worker.content m
             ∧ Worker.retryCount m' = Worker.retryCount m + 1)
  ∧ (3 ≤ Worker.retryCount m →
       Worker.on_processing_error m = [Worker.Now (Worker.Ack m)]
       ∧ Worker.republished (Worker.on_processing_error m) = [])
  ∧ Worker.acked (Worker.on_processing_error m) = [m]
  ∧ (0 ≤ Worker.retryCount m →
       ∀ fuel, (length (Worker.failing_deliveries fuel m) ≤ 4)%nat)
  ∧ (Worker.retryCount m = 0 →
       ∀ fuel, (4 ≤ fuel)%nat → length (Worker.failing_deliveries fuel m) = 4%nat).
Proof.
  split; [apply retryCount_absent |].
  split.
  { intros now gw d. unfold Worker.processPayment, Worker.process_delivery.
    by destruct gw. }
  split.
  { intros now gw d. unfold Worker.processPayment, Worker.process_delivery.
    destruct gw as [pid | err].
    - destruct (Booking.confirm_payment _ _ _ d) as [r d'].
      destruct (Worker.resolves r); [right; by eexists | by left].
    - destruct (Booking.cancel_booking _ _ _ d) as [r d'].
      destruct (Worker.resolves r); [right; by eexists | by left]. }
  split.
  { intros Hlt. split.
    - unfold Worker.on_processing_error.
      assert (Hb : (Worker.retryCount m <? 3) = true) by lia. by rewrite Hb.
    - eexists. split; [by apply republished_retry |].
      split; [done | apply retryCount_stored]. }
  split.
  { intros Hge. split; [| by apply republished_drop].
    unfold Worker.on_processing_error.
    assert (Hb : (Worker.retryCount m <? 3) = false) by lia. by rewrite Hb. }
  split.
  { unfold Worker.on_processing_error.
    by destruct (Worker.retryCount m <? 3). }
  split.
  - intros Hnonneg fuel. pose proof (failing_deliveries_bound fuel m). lia.
  - intros Hzero fuel Hfuel.
    pose proof (failing_deliveries_exact fuel m). lia.
Qed.

Lemma processing_error_retry_policy_witness :
  Worker.retryCount Sample.payment_message = 0
  ∧ Worker.on_processing_error Sample.payment_message
    = [Worker.SetTimeout 5000
         [Worker.SendToQueue "payment_processing"
            (Worker.PaymentRequest (Worker.content Sample.payment_message))
            (Some {[ "retryCount" := Js.JNum 1 ]});
          Worker.Ack Sample.payment_message]]
  ∧ length (Worker.failing_deliveries 9 Sample.payment_message) = 4%nat.
Proof.
  destruct (processing_error_retry_policy Sample.payment_message)
    as (Habsent & _ & _ & Hretry & _ & _ & _ & Hexact).
  assert (Hzero : Worker.retryCount Sample.payment_message = 0)
    by (apply Habsent; left; reflexivity).
  split; [exact Hzero |]. split.
  - assert (Hlt : Worker.retryCount Sample.payment_message < 3)
      by (rewrite Hzero; lia).
    destruct (Hretry Hlt) as [Heffects _]. rewrite Hzero in Heffects.
    exact Heffects.
  - apply (Hexact Hzero). lia.
Defined.

(** ** Scenarios *)

(** An event with two tickets left.  Reserving both leaves none; a further
    reservation of one ticket is refused and changes nothing; the
    confirmation makes the booking confirmed and paid; its cancellation ten
    days before the event gives both tickets back and reports the full
    amount as refund. *)
Example scenario_reserve_confirm_cancel :
  List.map ev_available_tickets (events Sample.reserved) = [0]
  ∧ fst (fst (Booking.create_booking Sample.clock0 "uuid-2" "BK2" (Sample.body 8 1 1)
                                     ∅ Sample.reserved))
    = Booking.Error 400 "Only 0 tickets available"
  ∧ snd (Booking.create_booking Sample.clock0 "uuid-2" "BK2" (Sample.body 8 1 1)
                                ∅ Sample.reserved)
    = Sample.reserved
  ∧ List.map (λ b, (bk_status b, bk_payment_status b)) (bookings Sample.paid)
    = [(Confirmed, Completed)]
  ∧ fst (Booking.cancel_booking 0 1 7 Sample.paid)
    = Booking.BookingCancelled 1 10000
  ∧ List.map ev_available_tickets
             (events (snd (Booking.cancel_booking 0 1 7 Sample.paid)))
    = [2].
Proof. vm_compute. repeat split. Qed.

(** A reservation that is never paid: after its window the sweep returns
    the tickets and marks it expired, and a late confirmation is refused. *)
Example scenario_expiry :
  Booking.cleanup_expired reservation_window reservation_window Sample.reserved
    = (Booking.CleanupDone "No expired bookings found" 0, Sample.reserved)
  ∧ fst (Booking.cleanup_expired (reservation_window + 1) (reservation_window + 1)
                                 Sample.reserved)
    = Booking.CleanupDone "Expired bookings cleaned up successfully" 1
  ∧ List.map bk_status (bookings Sample.swept) = [Expired]
  ∧ List.map ev_available_tickets (events Sample.swept) = [2]
  ∧ Booking.confirm_payment 1 "PAY_1" credit_card Sample.swept
    = (Booking.Error 400 "Booking is not in pending status", Sample.swept).
Proof. vm_compute. repeat split. Qed.

(** The gateway declines the payment: the worker cancels the booking, the
    tickets are back, no payment row exists, and the delivery is
    acknowledged after the failure notice. *)
Example scenario_gateway_failure :
  let out := Worker.processPayment 0 (Worker.GatewayFailure "card declined") true
                                   (Some Sample.payment_message) Sample.reserved in
  List.map bk_status (bookings (snd out)) = [Cancelled]
  ∧ List.map ev_available_tickets (events (snd out)) = [2]
  ∧ payments (snd out) = []
  ∧ Worker.acked (fst out) = [Sample.payment_message]
  ∧ Worker.republished (fst out) = [].
Proof. vm_compute. repeat split. Qed.

(** * Further properties *)

(** ** The lock helpers *)

Lemma get_after_acquire (now now' ttl : Z) (v key : string) (s : Lock.store) :
  Lock.get now s key = None →
  Lock.acquireLock now v key ttl s
  = (Some v, <[key := {| Lock.value := v; Lock.expires := now + ttl * 1000 |}]> s)
  ∧ Lock.get now' (snd (Lock.acquireLock now v key ttl s)) key
    = if now' <? now + ttl * 1000 then Some v else None.
Proof.
  intros Hfree. unfold Lock.acquireLock, Lock.set_px_nx. rewrite Hfree. simpl.
  split; [done |]. unfold Lock.get. by rewrite lookup_insert_eq.
Qed.

(** X1. A lock taken on a free key excludes every other acquisition until
    its time to live has run out: within that time a second [acquireLock]
    answers [null] and writes nothing; from then on it succeeds. *)
Theorem acquireLock_exclusive (now now' ttl : Z) (v v' key : string)
    (s : Lock.store) :
  Lock.get now s key = None →
  fst (Lock.acquireLock now v key ttl s) = Some v
  ∧ (now' < now + ttl * 1000 →
       Lock.acquireLock now' v' key ttl (snd (Lock.acquireLock now v key ttl s))
       = (None, snd (Lock.acquireLock now v key ttl s)))
  ∧ (now + ttl * 1000 ≤ now' →
       fst (Lock.acquireLock now' v' key ttl (snd (Lock.acquireLock now v key ttl s)))
       = Some v').
Proof.
  intros Hfree.
  destruct (get_after_acquire now now' ttl v key s Hfree) as [Hacq Hget].
  split; [by rewrite Hacq |].
  remember (snd (Lock.acquireLock now v key ttl s)) as s1 eqn:Hs1.
  unfold Lock.acquireLock, Lock.set_px_nx. rewrite Hget.
  split; intros Hnow.
  - assert (Hb : (now' <? now + ttl * 1000) = true) by lia. by rewrite Hb.
  - assert (Hb : (now' <? now + ttl * 1000) = false) by lia. by rewrite Hb.
Qed.

Lemma acquireLock_exclusive_witness :
  Lock.get 0 ∅ "event_booking_lock:1" = None
  ∧ Lock.acquireLock 29999 "uuid-2" "event_booking_lock:1" 30
      (snd (Lock.acquireLock 0 "uuid-1" "event_booking_lock:1" 30 ∅))
    = (None, snd (Lock.acquireLock 0 "uuid-1" "event_booking_lock:1" 30 ∅))
  ∧ fst (Lock.acquireLock 30000 "uuid-2" "event_booking_lock:1" 30
           (snd (Lock.acquireLock 0 "uuid-1" "event_booking_lock:1" 30 ∅)))
    = Some "uuid-2".
Proof.
  assert (Hfree : Lock.get 0 ∅ "event_booking_lock:1" = None) by reflexivity.
  split; [exact Hfree |]. split.
  - destruct (acquireLock_exclusive 0 29999 30 "uuid-1" "uuid-2"
                "event_booking_lock:1" ∅ Hfree) as (_ & Hbusy & _).
    apply Hbusy. lia.
  - destruct (acquireLock_exclusive 0 30000 30 "uuid-1" "uuid-2"
                "event_booking_lock:1" ∅ Hfree) as (_ & _ & Htake).
    apply Htake. lia.
Defined.

(** X2. A holder whose lock has expired cannot release the lock of the
    holder that took the key after it: the second acquisition succeeds,
    and while the second lock lives a release by the first holder changes
    nothing, so that the key still holds the second token. *)
Theorem stale_holder_cannot_release (t1 t2 t3 ttl : Z) (v1 v2 key : string)
    (s : Lock.store) :
  Lock.get t1 s key = None →
  t1 + ttl * 1000 < t2 → t3 < t2 + ttl * 1000 →
  let s1 := snd (Lock.acquireLock t1 v1 key ttl s) in
  let s2 := snd (Lock.acquireLock t2 v2 key ttl s1) in
  fst (Lock.acquireLock t2 v2 key ttl s1) = Some v2
  ∧ Lock.releaseLock t3 key v1 s2 = s2
  ∧ Lock.get t3 (Lock.releaseLock t3 key v1 s2) key = Some v2.
Proof.
  intros Hfree Hexpired Hlive s1 s2.
  assert (Hfree1 : Lock.get t2 s1 key = None).
  { unfold s1. destruct (get_after_acquire t1 t2 ttl v1 key s Hfree) as [_ ->].
    assert (Hb : (t2 <? t1 + ttl * 1000) = false) by lia. by rewrite Hb. }
  destruct (get_after_acquire t2 t3 ttl v2 key s1 Hfree1) as [Hacq Hget].
  fold s2 in Hget.
  assert (Hb : (t3 <? t2 + ttl * 1000) = true) by lia. rewrite Hb in Hget.
  split; [by rewrite Hacq |].
  destruct (releaseLock_unchanged t3 key v1 s2) as [_ Hsame].
  split; [exact Hsame | by rewrite Hsame].
Qed.

Lemma stale_holder_cannot_release_witness :
  Lock.get 31000
    (Lock.releaseLock 31000 "event_booking_lock:1" "uuid-1"
       (snd (Lock.acquireLock 30001 "uuid-2" "event_booking_lock:1" 30
               (snd (Lock.acquireLock 0 "uuid-1" "event_booking_lock:1" 30 ∅)))))
    "event_booking_lock:1"
  = Some "uuid-2".
Proof.
  assert (Hfree : Lock.get 0 ∅ "event_booking_lock:1" = None) by reflexivity.
  assert (Hexp : 0 + 30 * 1000 < 30001) by lia.
  assert (Hlive : 31000 < 30001 + 30 * 1000) by lia.
  exact (proj2 (proj2 (stale_holder_cannot_release 0 30001 31000 30 "uuid-1" "uuid-2"
                         "event_booking_lock:1" ∅ Hfree Hexp Hlive))).
Defined.

(** X3. A release does not free the lock.  After a key has been acquired
    and released with the token received, at whatever time, it still reads
    as held by that token, and further acquisitions are refused, until the
    time to live of the acquisition has run out; after that it reads as
    free. *)
Theorem lock_outlives_release (now now' ttl : Z) (v key : string)
    (s : Lock.store) :
  Lock.get now s key = None →
  let s' := Lock.releaseLock now' key v (snd (Lock.acquireLock now v key ttl s)) in
  s' = <[key := {| Lock.value := v; Lock.expires := now + ttl * 1000 |}]> s
  ∧ (∀ t, t < now + ttl * 1000 → Lock.get t s' key = Some v)
  ∧ (∀ t v', t < now + ttl * 1000 → Lock.acquireLock t v' key ttl s' = (None, s'))
  ∧ (∀ t, now + ttl * 1000 < t → Lock.get t s' key = None).
Proof.
  intros Hfree s'.
  destruct (get_after_acquire now now ttl v key s Hfree) as [Hacq _].
  assert (Hs' : s' = <[key := {| Lock.value := v;
                                 Lock.expires := now + ttl * 1000 |}]> s).
  { unfold s'. destruct (releaseLock_unchanged now' key v
                           (snd (Lock.acquireLock now v key ttl s))) as [_ ->].
    by rewrite Hacq. }
  assert (Hget : ∀ t, Lock.get t s' key
                      = if t <? now + ttl * 1000 then Some v else None).
  { intros t. rewrite Hs'. unfold Lock.get. by rewrite lookup_insert_eq. }
  split; [exact Hs' |]. split; [| split].
  - intros t Ht. rewrite Hget.
    assert (Hb : (t <? now + ttl * 1000) = true) by lia. by rewrite Hb.
  - intros t v' Ht. unfold Lock.acquireLock, Lock.set_px_nx. rewrite Hget.
    assert (Hb : (t <? now + ttl * 1000) = true) by lia. by rewrite Hb.
  - intros t Ht. rewrite Hget.
    assert (Hb : (t <? now + ttl * 1000) = false) by lia. by rewrite Hb.
Qed.

Lemma lock_outlives_release_witness :
  Lock.get 5 (Lock.releaseLock 5 "event_booking_lock:1" "uuid-1"
                (snd (Lock.acquireLock 0 "uuid-1" "event_booking_lock:1" 30
                        Sample.held_lock)))
           "event_booking_lock:1"
  = Some "uuid-1".
Proof.
  assert (Hfree : Lock.get 0 Sample.held_lock "event_booking_lock:1" = None)
    by reflexivity.
  destruct (lock_outlives_release 0 5 30 "uuid-1" "event_booking_lock:1"
              Sample.held_lock Hfree) as (_ & Hheld & _).
  apply Hheld. lia.
Defined.

(** ** The lock of a reservation *)

Section ReservationLock.

Variables (clk : Booking.create_clock) (lockValue bookingReference : string).
Variables (u e t : Z).

Let body : Booking.create_body :=
  {| Booking.userId := Js.JNum u; Booking.eventId := Js.JNum e;
     Booking.ticketCount := Js.JNum t |}.

Hypothesis user_given : u ≠ 0.
Hypothesis event_given : e ≠ 0.
Hypothesis count_in_range : 1 ≤ t ≤ 10.

Lemma create_booking_passes_validation (locks : Lock.store) (d : db) :
  Booking.create_booking clk lockValue bookingReference body locks d
  = let key := Booking.lockKey (Js.JNum e) in
    let '(acquired, locks1) :=
      Lock.acquireLock (Booking.at_acquire clk) lockValue key 30 locks in
    match acquired with
    | Some v =>
      if Js.truthy_string v then
        let '(r, d') := Booking.create_booking_tx clk bookingReference u e t d in
        (r, Lock.releaseLock (Booking.at_release clk) key v locks1, d')
      else
        (Booking.Error 429
           "Event is currently being booked by another user. Please try again.",
         locks1, d)
    | None =>
        (Booking.Error 429
           "Event is currently being booked by another user. Please try again.",
         locks1, d)
    end.
Proof.
  unfold Booking.create_booking, body. simpl.
  assert (Hu : (u =? 0) = false) by lia.
  assert (He : (e =? 0) = false) by lia.
  assert (Ht : (t =? 0) = false) by lia.
  rewrite Hu, He, Ht. simpl.
  unfold Js.le_num, Js.gt_num. simpl.
  assert (Hle : (t <=? 0) = false) by lia.
  assert (Hgt : (10 <? t) = false) by lia.
  rewrite Hle, Hgt. done.
Qed.

(** X4. While another request holds the lock of the event, a valid
    reservation is answered 429 at once: nothing is written to the key
    space or to the database. *)
Theorem create_booking_busy (locks : Lock.store) (d : db) (holder : string) :
  Lock.get (Booking.at_acquire clk) locks (Booking.lockKey (Js.JNum e)) = Some holder →
  Booking.create_booking clk lockValue bookingReference body locks d
  = (Booking.Error 429
       "Event is currently being booked by another user. Please try again.",
     locks, d).
Proof.
  intros Hheld. rewrite create_booking_passes_validation. simpl.
  unfold Lock.acquireLock, Lock.set_px_nx. by rewrite Hheld.
Qed.

End ReservationLock.

Lemma create_booking_busy_witness :
  Booking.create_booking Sample.clock0 "uuid-2" "BK2" (Sample.body 8 7 1)
                         Sample.held_lock Sample.fresh
  = (Booking.Error 429
       "Event is currently being booked by another user. Please try again.",
     Sample.held_lock, Sample.fresh).
Proof.
  apply (create_booking_busy Sample.clock0 "uuid-2" "BK2" 8 7 1) with (holder := "tok-a");
    [lia | lia | lia | reflexivity].
Defined.

(** X5. A valid reservation that finds the lock free leaves it held,
    whatever its answer, since its release changes nothing: the key space
    afterwards is the one before with the event's key holding the
    request's token until 30 seconds after the acquisition, every other
    key as it was.  Until then any further valid reservation of the same
    event is answered 429 and writes nothing. *)
Theorem create_booking_leaves_lock_held (clk : Booking.create_clock)
    (lockValue bookingReference : string) (u e t : Z) (locks : Lock.store)
    (d : db) :
  u ≠ 0 → e ≠ 0 → 1 ≤ t ≤ 10 → lockValue ≠ "" →
  Lock.get (Booking.at_acquire clk) locks (Booking.lockKey (Js.JNum e)) = None →
  let locks' :=
    snd (fst (Booking.create_booking clk lockValue bookingReference
                {| Booking.userId := Js.JNum u; Booking.eventId := Js.JNum e;
                   Booking.ticketCount := Js.JNum t |} locks d)) in
  locks' = <[Booking.lockKey (Js.JNum e) :=
               {| Lock.value := lockValue;
                  Lock.expires := Booking.at_acquire clk + 30 * 1000 |}]> locks
  ∧ (∀ now, now < Booking.at_acquire clk + 30 * 1000 →
            Lock.get now locks' (Booking.lockKey (Js.JNum e)) = Some lockValue)
  ∧ (∀ key, key ≠ Booking.lockKey (Js.JNum e) → locks' !! key = locks !! key)
  ∧ (∀ clk' lockValue' bookingReference' u' t' d',
       u' ≠ 0 → 1 ≤ t' ≤ 10 →
       Booking.at_acquire clk' < Booking.at_acquire clk + 30 * 1000 →
       Booking.create_booking clk' lockValue' bookingReference'
         {| Booking.userId := Js.JNum u'; Booking.eventId := Js.JNum e;
            Booking.ticketCount := Js.JNum t' |} locks' d'
       = (Booking.Error 429
            "Event is currently being booked by another user. Please try again.",
          locks', d')).
Proof.
  intros Hu He Ht Hv Hfree locks'.
  assert (Hlocks : locks'
    = <[Booking.lockKey (Js.JNum e) :=
          {| Lock.value := lockValue;
             Lock.expires := Booking.at_acquire clk + 30 * 1000 |}]> locks).
  { unfold locks'.
    rewrite (create_booking_passes_validation clk lockValue bookingReference u e t
               Hu He Ht locks d).
    destruct (get_after_acquire (Booking.at_acquire clk) (Booking.at_acquire clk) 30
                lockValue (Booking.lockKey (Js.JNum e)) locks Hfree) as [Hacq _].
    cbv zeta. rewrite Hacq.
    destruct lockValue as [| c rest]; [done |]. simpl Js.truthy_string. cbv iota.
    destruct (Booking.create_booking_tx clk bookingReference u e t d) as [r d1].
    simpl. by destruct (releaseLock_unchanged (Booking.at_release clk)
                          (Booking.lockKey (Js.JNum e)) (String c rest)
                          (<[Booking.lockKey (Js.JNum e) :=
                               {| Lock.value := String c rest;
                                  Lock.expires := Booking.at_acquire clk + 30 * 1000 |}]>
                             locks)) as [_ ->]. }
  assert (Hget : ∀ now, now < Booking.at_acquire clk + 30 * 1000 →
                        Lock.get now locks' (Booking.lockKey (Js.JNum e))
                        = Some lockValue).
  { intros now Hnow. rewrite Hlocks. unfold Lock.get. rewrite lookup_insert_eq.
    simpl. assert (Hb : (now <? Booking.at_acquire clk + 30 * 1000) = true) by lia.
    by rewrite Hb. }
  split; [exact Hlocks |]. split; [exact Hget |]. split.
  - intros key Hkey. rewrite Hlocks. by rewrite lookup_insert_ne.
  - intros clk' lockValue' bookingReference' u' t' d' Hu' Ht' Hsoon.
    rewrite (create_booking_passes_validation clk' lockValue' bookingReference'
               u' e t' Hu' He Ht' locks' d').
    cbv zeta. unfold Lock.acquireLock, Lock.set_px_nx.
    by rewrite (Hget _ Hsoon).
Qed.

Lemma create_booking_leaves_lock_held_witness :
  Lock.get 29999
    (snd (fst (Booking.create_booking Sample.clock0 "uuid-1" "BK1"
                 (Sample.body 7 1 2) Sample.held_lock Sample.fresh)))
    (Booking.lockKey (Js.JNum 1))
  = Some "uuid-1"
  ∧ snd (fst (Booking.create_booking Sample.clock0 "uuid-1" "BK1"
                (Sample.body 7 1 2) Sample.held_lock Sample.fresh))
      !! "event_booking_lock:7"
    = Sample.held_lock !! "event_booking_lock:7".
Proof.
  assert (H7 : (7 : Z) ≠ 0) by lia.
  assert (H1 : (1 : Z) ≠ 0) by lia.
  assert (Ht : 1 ≤ 2 ≤ 10) by lia.
  assert (Hv : "uuid-1" ≠ "") by discriminate.
  assert (Hfree : Lock.get (Booking.at_acquire Sample.clock0) Sample.held_lock
                           (Booking.lockKey (Js.JNum 1)) = None) by reflexivity.
  destruct (create_booking_leaves_lock_held Sample.clock0 "uuid-1" "BK1" 7 1 2
              Sample.held_lock Sample.fresh H7 H1 Ht Hv Hfree)
    as (_ & Hheld & Hrest & _).
  split.
  - apply Hheld. vm_compute. reflexivity.
  - apply Hrest. discriminate.
Defined.

(** ** Reservations that succeed *)

Lemma filter_head_In {A : Type} (p : A → bool) (l : list A) (x : A) (rest : list A) :
  List.filter p l = x :: rest → In x l ∧ p x = true.
Proof.
  intros Hf. apply filter_In. rewrite Hf. by left.
Qed.

(** What a reservation that is answered 201 found and wrote. *)
Lemma create_booking_tx_created (clk : Booking.create_clock)
    (bookingReference ref : string) (u e t id amount count : Z) (d d' : db) :
  Booking.create_booking_tx clk bookingReference u e t d
    = (Booking.BookingCreated id ref amount count, d') →
  ∃ ev rest,
    select_active_event e d = ev :: rest
    ∧ Booking.at_check clk < ev_event_date ev
    ∧ t ≤ ev_available_tickets ev
    ∧ select_user_bookings u e d = []
    ∧ id = next_booking_id d ∧ ref = bookingReference
    ∧ amount = ev_price ev * t ∧ count = t
    ∧ d' = add_available_tickets (- t) e
             (Database (users d) (events d)
                (bookings d ++ [Booking (next_booking_id d) u e t (ev_price ev * t)
                                        Pending bookingReference PayPending
                                        (Booking.at_insert clk + reservation_window)])
                (payments d) (next_booking_id d + 1) (next_payment_id d)).
Proof.
  unfold Booking.create_booking_tx.
  destruct (select_active_event e d) as [| ev evs] eqn:Hsel; [discriminate |].
  destruct (ev_event_date ev <=? Booking.at_check clk) eqn:Hdate; [discriminate |].
  destruct (ev_available_tickets ev <? t) eqn:Hshort; [discriminate |].
  destruct (select_user_bookings u e d) eqn:Hdup; [| discriminate].
  unfold insert_booking.
  destruct (existsb _ (users d) && existsb _ (events d) && negb _); [| discriminate].
  intros Heq. injection Heq as <- <- <- <- <-.
  exists ev, evs. repeat split; lia.
Qed.

(** X6. A valid reservation that finds the lock free, the event active
    and in the future, enough tickets, no pending or confirmed booking of
    the user for the event, a registered user and an unused reference is
    answered 201: the new booking gets the next id, is pending for
    [price * ticketCount] and expires 15 minutes after the insert, and the
    event's [available_tickets] go down by [ticketCount]. *)
Theorem create_booking_succeeds (clk : Booking.create_clock)
    (lockValue bookingReference : string) (u e t : Z) (locks : Lock.store)
    (d : db) (ev : event) (rest : list event) :
  u ≠ 0 → e ≠ 0 → 1 ≤ t ≤ 10 → lockValue ≠ "" →
  Lock.get (Booking.at_acquire clk) locks (Booking.lockKey (Js.JNum e)) = None →
  select_active_event e d = ev :: rest →
  Booking.at_check clk < ev_event_date ev →
  t ≤ ev_available_tickets ev →
  select_user_bookings u e d = [] →
  In u (users d) →
  (∀ b, In b (bookings d) → bk_booking_reference b ≠ bookingReference) →
  let body := {| Booking.userId := Js.JNum u; Booking.eventId := Js.JNum e;
                 Booking.ticketCount := Js.JNum t |} in
  let out := Booking.create_booking clk lockValue bookingReference body locks d in
  fst (fst out)
    = Booking.BookingCreated (next_booking_id d) bookingReference (ev_price ev * t) t
  ∧ bookings (snd out)
    = bookings d ++ [Booking (next_booking_id d) u e t (ev_price ev * t) Pending
                             bookingReference PayPending
                             (Booking.at_insert clk + reservation_window)]
  ∧ events (snd out)
    = List.map (λ x, if ev_id x =? e then add_available (- t) x else x) (events d)
  ∧ next_booking_id (snd out) = next_booking_id d + 1
  ∧ List.map ev_available_tickets (events (snd out))
    = List.map (λ x, if ev_id x =? e then ev_available_tickets x - t
                     else ev_available_tickets x) (events d).
Proof.
  intros Hu He Ht Hv Hfree Hsel Hfuture Henough Hnodup Huser Hfresh body out.
  destruct (create_booking_runs_tx clk lockValue bookingReference u e t locks d
              Hu He Ht Hv Hfree) as [Hr Hd].
  fold body in Hr, Hd. fold out in Hr, Hd. rewrite Hr, Hd. clear Hr Hd out.
  unfold Booking.create_booking_tx. rewrite Hsel.
  assert (Hb1 : (ev_event_date ev <=? Booking.at_check clk) = false) by lia.
  assert (Hb2 : (ev_available_tickets ev <? t) = false) by lia.
  rewrite Hb1, Hb2, Hnodup. unfold insert_booking.
  assert (Hx1 : existsb (Z.eqb u) (users d) = true).
  { apply existsb_exists. exists u. split; [done | lia]. }
  assert (Hx2 : existsb (λ x, ev_id x =? e) (events d) = true).
  { apply existsb_exists. exists ev.
    destruct (filter_head_In _ _ _ _ Hsel) as [Hin Hcond].
    split; [done |]. apply andb_true_iff in Hcond. tauto. }
  assert (Hx3 : existsb (λ b, bool_decide (bk_booking_reference b = bookingReference))
                        (bookings d) = false).
  { apply not_true_is_false. intros Hex. apply existsb_exists in Hex.
    destruct Hex as (b & Hb & Heq). apply bool_decide_eq_true in Heq.
    by apply (Hfresh b Hb). }
  rewrite Hx1, Hx2, Hx3. simpl. repeat split.
  rewrite List.map_map. apply List.map_ext. intros x.
  destruct (ev_id x =? e); simpl; [lia | done].
Qed.

Lemma create_booking_succeeds_witness :
  fst (fst (Booking.create_booking Sample.clock0 "uuid-1" "BK1" (Sample.body 7 1 2)
                                   ∅ Sample.fresh))
    = Booking.BookingCreated 1 "BK1" 10000 2
  ∧ bookings (snd (Booking.create_booking Sample.clock0 "uuid-1" "BK1"
                                          (Sample.body 7 1 2) ∅ Sample.fresh))
    = [Booking 1 7 1 2 10000 Pending "BK1" PayPending 900000]
  ∧ List.map ev_available_tickets (events Sample.fresh) = [2]
  ∧ List.map ev_available_tickets
      (events (snd (Booking.create_booking Sample.clock0 "uuid-1" "BK1"
                                           (Sample.body 7 1 2) ∅ Sample.fresh)))
    = [0].
Proof.
  assert (H7 : (7 : Z) ≠ 0) by lia.
  assert (H1 : (1 : Z) ≠ 0) by lia.
  assert (Ht : 1 ≤ 2 ≤ 10) by lia.
  assert (Hv : "uuid-1" ≠ "") by discriminate.
  assert (Hfree : Lock.get (Booking.at_acquire Sample.clock0) ∅
                           (Booking.lockKey (Js.JNum 1)) = None) by reflexivity.
  assert (Hsel : select_active_event 1 Sample.fresh
                 = [Event 1 (240 * Sample.hour) 2 2 5000 Active]) by reflexivity.
  assert (Hfut : Booking.at_check Sample.clock0
                 < ev_event_date (Event 1 (240 * Sample.hour) 2 2 5000 Active))
    by (vm_compute; reflexivity).
  assert (Hen : 2 ≤ ev_available_tickets (Event 1 (240 * Sample.hour) 2 2 5000 Active))
    by (simpl; lia).
  assert (Hnone : select_user_bookings 7 1 Sample.fresh = []) by reflexivity.
  assert (Huser : In 7 (users Sample.fresh)) by (left; reflexivity).
  assert (Hfresh : ∀ b, In b (bookings Sample.fresh) → bk_booking_reference b ≠ "BK1")
    by (intros b []).
  destruct (create_booking_succeeds Sample.clock0 "uuid-1" "BK1" 7 1 2 ∅ Sample.fresh
              _ _ H7 H1 Ht Hv Hfree Hsel Hfut Hen Hnone Huser Hfresh)
    as (Hr & Hbs & _ & _ & Havail).
  split; [exact Hr |]. split; [exact Hbs |]. split; [reflexivity |].
  change (Sample.body 7 1 2)
    with {| Booking.userId := Js.JNum 7; Booking.eventId := Js.JNum 1;
            Booking.ticketCount := Js.JNum 2 |}.
  rewrite Havail. reflexivity.
Defined.

(** ** Errors roll back *)

(** X7. Whatever the route, a request that is answered with an error
    leaves the database exactly as it was. *)
Theorem run_error_rolls_back (o : Inventory.operation) (locks : Lock.store)
    (d : db) (code : Z) (msg : string) :
  fst (fst (Inventory.run o locks d)) = Booking.Error code msg →
  snd (Inventory.run o locks d) = d.
Proof.
  destruct o as [clk lv ref body | now bid user | bid pid method | n1 n2]; simpl.
  - apply create_booking_error_rolls_back.
  - unfold Booking.cancel_booking.
    destruct (select_booking_of_user bid user d) as [| bk rest]; [done |].
    destruct (bool_decide (bk_status bk = Cancelled)); [done |].
    match goal with
    | |- context [match ?r with Some _ => _ | None => _ end] => destruct r
    end; [done | discriminate].
  - unfold Booking.confirm_payment.
    destruct (select_booking bid d) as [| bk rest]; [done |].
    destruct (negb _); [done |].
    destruct (insert_payment _ _ _ _ _); [discriminate | done].
  - unfold Booking.cleanup_expired.
    destruct (select_expired n1 d); [done | discriminate].
Qed.

Lemma run_error_rolls_back_witness :
  fst (fst (Inventory.run (Inventory.ConfirmPayment 1 "PAY_2" paypal) ∅ Sample.paid))
    = Booking.Error 400 "Booking is not in pending status"
  ∧ snd (Inventory.run (Inventory.ConfirmPayment 1 "PAY_2" paypal) ∅ Sample.paid)
    = Sample.paid.
Proof.
  assert (Herr : fst (fst (Inventory.run (Inventory.ConfirmPayment 1 "PAY_2" paypal)
                                         ∅ Sample.paid))
                 = Booking.Error 400 "Booking is not in pending status")
    by reflexivity.
  split; [exact Herr |].
  exact (run_error_rolls_back _ _ _ _ _ Herr).
Defined.

(** ** Available tickets stay non-negative *)

Section StockInvariants.

Import Stock.

Lemma unique_event_id (es : list event) (e1 e2 : event) :
  List.NoDup (List.map ev_id es) → In e1 es → In e2 es → ev_id e1 = ev_id e2 →
  e1 = e2.
Proof.
  induction es as [| x es IH]; [done |].
  simpl. intros Hnd [-> | H1] [-> | H2] Hid;
    inversion Hnd as [| ? ? Hnotin Hnd']; subst.
  - done.
  - exfalso. apply Hnotin. rewrite Hid. by apply in_map.
  - exfalso. apply Hnotin. rewrite <- Hid. by apply in_map.
  - by apply IH.
Qed.

(** Mapping the events by a function that keeps ids and keeps
    [available_tickets] from going negative, and leaving the ticket counts
    of the bookings in range, keeps [stock_ok]. *)
Lemma stock_ok_step (d d' : db) (h : event → event) :
  events d' = List.map h (events d) →
  (∀ x, In x (events d) → 0 ≤ ev_available_tickets x →
        ev_id (h x) = ev_id x ∧ 0 ≤ ev_available_tickets (h x)) →
  Forall (λ b, 1 ≤ bk_ticket_count b ≤ 10) (bookings d') →
  stock_ok d → stock_ok d'.
Proof.
  intros Hev Hh Hbs (Huniq & Hav & _). unfold stock_ok, unique_event_ids.
  rewrite List.Forall_forall in Hav.
  rewrite Hev. split; [| split; [| done]].
  - rewrite List.map_map.
    erewrite List.map_ext_in; [exact Huniq |].
    intros x Hx. simpl. by apply Hh; [| apply Hav].
  - apply List.Forall_map. apply List.Forall_forall. intros x Hx.
    by apply Hh; [| apply Hav].
Qed.

Lemma restored_to_nonneg (eventId : Z) (sel : list booking) :
  Forall (λ b, 1 ≤ bk_ticket_count b ≤ 10) sel →
  0 ≤ Inventory.restored_to eventId sel.
Proof.
  induction 1 as [| b sel Hb _ IH]; simpl; [lia |].
  destruct (bk_event_id b =? eventId); lia.
Qed.

(** One operation keeps [stock_ok]. *)
Lemma run_keeps_stock (o : Inventory.operation) (locks : Lock.store) (d : db) :
  stock_ok d → stock_ok (snd (Inventory.run o locks d)).
Proof.
  intros Hok. pose proof Hok as (Huniq & Hav & Hrange).
  destruct o as [clk lv ref body | now bid user | bid pid method | n1 n2]; simpl.
  - destruct (create_booking_bookings clk lv ref body locks d)
      as [Heq | (u & e & t & _ & Ht & Heq)]; simpl in Heq; rewrite Heq; [done |].
    destruct (create_booking_tx_bookings clk ref u e t d)
      as [Htx | (ev & rest & Hsel & Hen & Hbs & Hev & _)]; simpl in *;
      [by rewrite Htx |].
    eapply stock_ok_step; [exact Hev | | | exact Hok].
    + intros x Hx Hx0. cbv beta. destruct (ev_id x =? e) eqn:Hid; [| by split].
      split; [done |]. simpl.
      destruct (filter_head_In _ _ _ _ Hsel) as [Hin Hcond].
      apply andb_true_iff in Hcond. destruct Hcond as [Hide _].
      assert (x = ev) as -> by (apply (unique_event_id (events d)); try done; lia).
      lia.
    + rewrite Hbs. apply Forall_app. split; [done |].
      repeat constructor; simpl; lia.
  - destruct (Booking.cancel_booking now bid user d) as [r d'] eqn:Hrun.
    pose proof (cancel_booking_db now bid user d) as Hdb. rewrite Hrun in Hdb.
    simpl in Hdb. simpl.
    destruct Hdb as [-> | (bk & rest & Hsel & _ & ->)]; [done |].
    destruct (filter_head_In _ _ _ _ Hsel) as [Hin _].
    rewrite List.Forall_forall in Hrange. pose proof (Hrange bk Hin) as Hbk.
    apply (stock_ok_step d _
             (λ x, if ev_id x =? bk_event_id bk
                   then add_available (bk_ticket_count bk) x else x));
      [reflexivity | | | exact Hok].
    + intros x Hx Hx0. cbv beta. destruct (ev_id x =? bk_event_id bk); [| by split].
      split; [done |]. simpl. lia.
    + simpl. apply List.Forall_map. apply List.Forall_forall. intros b Hb.
      specialize (Hrange b Hb). by destruct (bk_id b =? bid).
  - destruct (Booking.confirm_payment bid pid method d) as [r d'] eqn:Hrun.
    pose proof (confirm_payment_db bid pid method d) as Hdb. rewrite Hrun in Hdb.
    simpl in Hdb. simpl.
    destruct Hdb as [-> | (bk & rest & _ & _ & Hbs & Hev & _)]; [done |].
    apply (stock_ok_step d _ (λ x, x));
      [by rewrite List.map_id | by split | | exact Hok].
    rewrite Hbs. simpl. apply List.Forall_map.
    rewrite List.Forall_forall in *. intros b Hb.
    specialize (Hrange b Hb). by destruct (bk_id b =? bid).
  - destruct (cleanup_expired_effect n1 n2 d) as [Hnone Hsome]. simpl in *.
    destruct (select_expired n1 d) as [| b0 sel] eqn:Hsel.
    { by rewrite (Hnone eq_refl). }
    destruct Hsome as (_ & Hbs & Hev & _); [discriminate |].
    destruct (Booking.cleanup_expired n1 n2 d) as [r d'] eqn:Hrun. simpl in *.
    eapply stock_ok_step; [exact Hev | | | exact Hok].
    + intros x Hx Hx0. split; [done |].
      assert (Hback : 0 ≤ Inventory.restored_to (ev_id x) (b0 :: sel)).
      { apply restored_to_nonneg. rewrite <- Hsel. unfold select_expired.
        rewrite List.Forall_forall in *. intros b Hb. apply filter_In in Hb.
        apply Hrange. tauto. }
      unfold add_available. cbn [ev_available_tickets]. simpl in Hback. lia.
    + rewrite Hbs. apply List.Forall_map.
      rewrite List.Forall_forall in *. intros b Hb.
      specialize (Hrange b Hb). by destruct (is_expired_pending n2 b).
Qed.

Lemma filter_length_map_le {A : Type} (p : A → bool) (g : A → A) (l : list A) :
  (∀ x, In x l → p (g x) = true → p x = true) →
  (length (List.filter p (List.map g l)) ≤ length (List.filter p l))%nat.
Proof.
  induction l as [| x l IH]; [done |]. intros Hg. simpl.
  assert (IH' := IH (λ y Hy, Hg y (or_intror Hy))).
  destruct (p (g x)) eqn:Hpg.
  - rewrite (Hg x (or_introl eq_refl) Hpg). simpl. lia.
  - destruct (p x); simpl; lia.
Qed.

(** One operation makes no second pending or confirmed booking of a user
    for an event. *)
Lemma run_keeps_one_booking_per_user (o : Inventory.operation)
    (locks : Lock.store) (d : db) :
  Inventory.unique_booking_ids d →
  one_booking_per_user d → one_booking_per_user (snd (Inventory.run o locks d)).
Proof.
  intros Huniq Hone u0 e0.
  assert (Hmap : ∀ d' (g : booking → booking),
    bookings d' = List.map g (bookings d) →
    (∀ b, In b (bookings d) →
          bk_user_id (g b) = bk_user_id b ∧ bk_event_id (g b) = bk_event_id b
          ∧ (holds_tickets (bk_status (g b)) = true →
             holds_tickets (bk_status b) = true)) →
    (length (select_user_bookings u0 e0 d') ≤ 1)%nat).
  { intros d' g Hbs Hg. unfold select_user_bookings. rewrite Hbs.
    etransitivity; [| exact (Hone u0 e0)].
    apply filter_length_map_le. intros b Hb Hcond.
    destruct (Hg b Hb) as (-> & -> & Hholds) in Hcond.
    apply andb_true_iff in Hcond. destruct Hcond as [Hue Hh].
    rewrite Hue. simpl. by apply Hholds. }
  destruct o as [clk lv ref body | now bid user | bid pid method | n1 n2]; simpl.
  - destruct (create_booking_bookings clk lv ref body locks d)
      as [Heq | (u & e & t & _ & _ & Heq)]; simpl in Heq; rewrite Heq;
      [by apply Hone |].
    destruct (Booking.create_booking_tx clk ref u e t d) as [r d'] eqn:Hrun.
    pose proof (create_booking_tx_bookings clk ref u e t d) as Htx.
    rewrite Hrun in Htx. simpl in Htx. simpl.
    destruct Htx as [-> | (ev & rest & _ & _ & Hbs & _)]; [by apply Hone |].
    destruct r as [id ref' amount count | | | |];
      try (exfalso;
           pose proof (create_booking_tx_reply clk ref u e t d) as Hrep;
           rewrite Hrun in Hrep; simpl in Hrep;
           destruct Hrep as [(c & m & Hr & _ & _ & Hd) | (i & a & Hr)];
           [subst d'; apply (f_equal (@length booking)) in Hbs;
            rewrite length_app in Hbs; simpl in Hbs; lia
           | discriminate]).
    destruct (create_booking_tx_created clk ref ref' u e t id amount count d d' Hrun)
      as (ev' & rest' & _ & _ & _ & Hnone & _).
    unfold select_user_bookings. rewrite Hbs, List.filter_app. simpl.
    rewrite length_app.
    destruct ((u =? u0) && (e =? e0)) eqn:Hsame.
    + apply andb_true_iff in Hsame. destruct Hsame as [Hu He].
      assert (u = u0) as <- by lia. assert (e = e0) as <- by lia.
      unfold select_user_bookings in Hnone. rewrite Hnone. simpl. lia.
    + simpl. specialize (Hone u0 e0). unfold select_user_bookings in Hone. lia.
  - destruct (Booking.cancel_booking now bid user d) as [r d'] eqn:Hrun.
    pose proof (cancel_booking_db now bid user d) as Hdb. rewrite Hrun in Hdb.
    simpl in Hdb. simpl.
    destruct Hdb as [-> | (bk & rest & _ & _ & ->)]; [by apply Hone |].
    apply (Hmap _ (λ b, if bk_id b =? bid then set_status Cancelled b else b));
      [done |].
    intros b Hb. destruct (bk_id b =? bid); simpl; [| done].
    repeat split. discriminate.
  - destruct (Booking.confirm_payment bid pid method d) as [r d'] eqn:Hrun.
    pose proof (confirm_payment_db bid pid method d) as Hdb. rewrite Hrun in Hdb.
    simpl in Hdb. simpl.
    destruct Hdb as [-> | (bk & rest & Hsel & Hp & Hbs & _)]; [by apply Hone |].
    apply (Hmap _ (λ b, if bk_id b =? bid
                        then set_status_and_payment Confirmed Completed b else b));
      [done |].
    intros b Hb. destruct (bk_id b =? bid) eqn:Hid; simpl; [| done].
    repeat split. intros _.
    destruct (filter_head_In _ _ _ _ Hsel) as [Hin Hcond].
    assert (b = bk) as ->
      by (apply (unique_booking_id (bookings d)); try done; lia).
    by rewrite Hp.
  - destruct (Booking.cleanup_expired n1 n2 d) as [r d'] eqn:Hrun.
    pose proof (cleanup_expired_bookings n1 n2 d) as Hdb. rewrite Hrun in Hdb.
    simpl in Hdb. simpl.
    destruct Hdb as [[_ ->] | (_ & Hbs & _)]; [by apply Hone |].
    apply (Hmap _ (λ b, if is_expired_pending n2 b then set_status Expired b else b));
      [done |].
    intros b Hb. destruct (is_expired_pending n2 b); simpl; [| done].
    repeat split. discriminate.
Qed.

End StockInvariants.

(** ** Cancellation: owner and cut-off *)

(** X10. Only the owner cancels: a cancellation that names a booking of
    another user is answered 404 and changes nothing. *)
Theorem cancel_booking_by_stranger (now bookingId user : Z) (d : db) (b : booking) :
  Inventory.unique_booking_ids d →
  In b (bookings d) → bk_id b = bookingId → bk_user_id b ≠ user →
  Booking.cancel_booking now bookingId user d
  = (Booking.Error 404 "Booking not found", d).
Proof.
  intros Huniq Hb Hid Hother. unfold Booking.cancel_booking.
  destruct (select_booking_of_user bookingId user d) as [| bk rest] eqn:Hsel;
    [done |].
  exfalso. destruct (filter_head_In _ _ _ _ Hsel) as [Hin Hcond].
  apply andb_true_iff in Hcond. destruct Hcond as [Hbid Huser].
  assert (bk = b) as ->
    by (apply (unique_booking_id (bookings d)); try done; lia).
  lia.
Qed.

Lemma cancel_booking_by_stranger_witness :
  Booking.cancel_booking 0 1 8 Sample.reserved
  = (Booking.Error 404 "Booking not found", Sample.reserved).
Proof.
  apply (cancel_booking_by_stranger 0 1 8 Sample.reserved
           (Booking 1 7 1 2 10000 Pending "BK1" PayPending 900000)).
  - repeat constructor. simpl. tauto.
  - left. reflexivity.
  - reflexivity.
  - simpl. lia.
Defined.

(** X11. The 24-hour rule binds confirmed bookings only.  The owner's
    cancellation of a confirmed booking is refused, with nothing changed,
    when the event is less than 24 hours away, and accepted from 24 hours
    on; the cancellation of a pending booking is accepted at any time, the
    clock is not consulted. *)
Theorem cancel_booking_cutoff (now bookingId user : Z) (d : db)
    (bk : booking) (rest : list booking) :
  select_booking_of_user bookingId user d = bk :: rest →
  (bk_status bk = Pending →
     ∃ refund, fst (Booking.cancel_booking now bookingId user d)
               = Booking.BookingCancelled bookingId refund)
  ∧ (bk_status bk = Confirmed →
     ∀ ev evs, select_event (bk_event_id bk) d = ev :: evs →
       (ev_event_date ev - now < 24 * (1000 * 60 * 60) →
          Booking.cancel_booking now bookingId user d
          = (Booking.Error 400 "Cannot cancel booking less than 24 hours before event",
             d))
       ∧ (24 * (1000 * 60 * 60) ≤ ev_event_date ev - now →
          ∃ refund, fst (Booking.cancel_booking now bookingId user d)
                    = Booking.BookingCancelled bookingId refund)).
Proof.
  intros Hsel. unfold Booking.cancel_booking. rewrite Hsel. split.
  - intros ->. simpl. by eexists.
  - intros -> ev evs ->. simpl. unfold Booking.hours_until_lt. split; intros Hh.
    + assert (Hb : (ev_event_date ev - now <? 24 * (1000 * 60 * 60)) = true) by lia.
      by rewrite Hb.
    + assert (Hb : (ev_event_date ev - now <? 24 * (1000 * 60 * 60)) = false) by lia.
      rewrite Hb. by eexists.
Qed.

Lemma cancel_booking_cutoff_witness :
  Booking.cancel_booking (217 * Sample.hour) 1 7 Sample.paid
  = (Booking.Error 400 "Cannot cancel booking less than 24 hours before event",
     Sample.paid)
  ∧ ∃ refund, fst (Booking.cancel_booking (216 * Sample.hour) 1 7 Sample.paid)
              = Booking.BookingCancelled 1 refund.
Proof.
  assert (Hsel : select_booking_of_user 1 7 Sample.paid
                 = [Booking 1 7 1 2 10000 Confirmed "BK1" Completed 900000])
    by reflexivity.
  assert (Hev : select_event 1 Sample.paid = [Event 1 (240 * Sample.hour) 2 0 5000 Active])
    by reflexivity.
  split.
  - destruct (cancel_booking_cutoff (217 * Sample.hour) 1 7 Sample.paid _ _ Hsel)
      as [_ Hconfirmed].
    destruct (Hconfirmed eq_refl _ _ Hev) as [Hlate _].
    apply Hlate. vm_compute. reflexivity.
  - destruct (cancel_booking_cutoff (216 * Sample.hour) 1 7 Sample.paid _ _ Hsel)
      as [_ Hconfirmed].
    destruct (Hconfirmed eq_refl _ _ Hev) as [_ Hearly].
    apply Hearly. vm_compute. discriminate.
Defined.

(** ** The sweep, repeated and too early *)

Lemma select_expired_monotone (now now' : Z) (d : db) :
  now' ≤ now → select_expired now d = [] → select_expired now' d = [].
Proof.
  unfold select_expired. intros Hle.
  induction (bookings d) as [| b bs IH]; [done |]. simpl.
  assert (Hb : is_expired_pending now b = false →
               is_expired_pending now' b = false).
  { unfold is_expired_pending.
    destruct (bool_decide (bk_status b = Pending)); simpl; [| done]. lia. }
  destruct (is_expired_pending now b); [discriminate |].
  rewrite Hb by done. exact IH.
Qed.

(** X12. Sweeping again gives nothing back a second time: after a sweep
    at time [now], a sweep whose [SELECT] reads a clock that is not later
    finds no booking, counts 0 and leaves the database as the first sweep
    left it. *)
Theorem cleanup_expired_again (now now' now'' : Z) (d : db) :
  now' ≤ now →
  Booking.cleanup_expired now' now'' (snd (Booking.cleanup_expired now now d))
  = (Booking.CleanupDone "No expired bookings found" 0,
     snd (Booking.cleanup_expired now now d)).
Proof.
  intros Hle.
  destruct (cleanup_expired_same_clock now d) as (_ & _ & _ & Hnone & _).
  simpl in Hnone.
  pose proof (select_expired_monotone now now' _ Hle Hnone) as Hnone'.
  destruct (cleanup_expired_effect now' now'' (snd (Booking.cleanup_expired now now d)))
    as [Hnoop _].
  by apply Hnoop.
Qed.

Lemma cleanup_expired_again_witness :
  Booking.cleanup_expired 900001 900001 Sample.swept
  = (Booking.CleanupDone "No expired bookings found" 0, Sample.swept).
Proof.
  apply (cleanup_expired_again 900001 900001 900001 Sample.reserved). lia.
Defined.

(** X13. A reservation has its full window: a sweep whose [UPDATE] reads
    a clock no later than 15 minutes after the insert leaves the new
    booking pending, and a sweep (reading one clock) later than that marks
    it expired. *)
Theorem reservation_window_respected (clk : Booking.create_clock)
    (bookingReference ref : string) (u e t id amount count : Z) (d d' : db) :
  Booking.create_booking_tx clk bookingReference u e t d
    = (Booking.BookingCreated id ref amount count, d') →
  let row st := Booking id u e t amount st bookingReference PayPending
                        (Booking.at_insert clk + 15 * 60 * 1000) in
  (∀ now_select now_update,
     now_update ≤ Booking.at_insert clk + 15 * 60 * 1000 →
     In (row Pending) (bookings (snd (Booking.cleanup_expired now_select now_update d'))))
  ∧ (∀ now,
     Booking.at_insert clk + 15 * 60 * 1000 < now →
     In (row Expired) (bookings (snd (Booking.cleanup_expired now now d')))).
Proof.
  intros Hrun row.
  destruct (create_booking_tx_created clk bookingReference ref u e t id amount count
              d d' Hrun) as (ev & rest & _ & _ & _ & _ & -> & -> & -> & -> & ->).
  assert (Hin : In (row Pending)
                   (bookings (add_available_tickets (- t) e
                      (Database (users d) (events d)
                         (bookings d ++ [row Pending]) (payments d)
                         (next_booking_id d + 1) (next_payment_id d))))).
  { simpl. apply in_or_app. right. by left. }
  split.
  - intros n1 n2 Hearly.
    pose proof (cleanup_expired_bookings n1 n2
                  (add_available_tickets (- t) e
                     (Database (users d) (events d)
                        (bookings d ++ [row Pending]) (payments d)
                        (next_booking_id d + 1) (next_payment_id d)))) as Hsweep.
    cbv zeta in Hsweep. destruct Hsweep as [[_ Heq] | (_ & Hbs & _)].
    + unfold row, reservation_window in *. by rewrite Heq.
    + unfold row, reservation_window in *. rewrite Hbs.
      apply in_map_iff. eexists. split; [| exact Hin].
      unfold is_expired_pending. simpl.
      assert (Hb : (Booking.at_insert clk + 15 * 60 * 1000 <? n2) = false) by lia.
      by rewrite Hb.
  - intros now Hlate.
    pose proof (cleanup_expired_same_clock now
                  (add_available_tickets (- t) e
                     (Database (users d) (events d)
                        (bookings d ++ [row Pending]) (payments d)
                        (next_booking_id d + 1) (next_payment_id d)))) as Hsweep.
    cbv zeta in Hsweep. destruct Hsweep as (_ & Hbs & _).
    unfold row, reservation_window in *. rewrite Hbs.
    apply in_map_iff. eexists. split; [| exact Hin].
    unfold is_expired_pending. simpl.
    assert (Hb : (Booking.at_insert clk + 15 * 60 * 1000 <? now) = true) by lia.
    by rewrite Hb.
Qed.

Lemma reservation_window_respected_witness :
  In (Booking 1 7 1 2 10000 Pending "BK1" PayPending 900000)
     (bookings (snd (Booking.cleanup_expired 900000 900000 Sample.reserved)))
  ∧ In (Booking 1 7 1 2 10000 Expired "BK1" PayPending 900000)
       (bookings (snd (Booking.cleanup_expired 900001 900001 Sample.reserved))).
Proof.
  assert (Hrun : Booking.create_booking_tx Sample.clock0 "BK1" 7 1 2 Sample.fresh
                 = (Booking.BookingCreated 1 "BK1" 10000 2, Sample.reserved))
    by reflexivity.
  destruct (reservation_window_respected Sample.clock0 "BK1" "BK1" 7 1 2 1 10000 2
              Sample.fresh Sample.reserved Hrun) as [Hearly Hlate].
  split.
  - apply (Hearly 900000 900000). vm_compute. discriminate.
  - apply (Hlate 900001). vm_compute. reflexivity.
Defined.

(** ** The payment worker and the booking service *)

(** The confirmation of a pending booking, and of the same booking once
    more. *)
Lemma confirm_payment_pending (bookingId : Z) (paymentId : string)
    (method : payment_method) (d : db) (bk : booking) (rest : list booking) :
  select_booking bookingId d = bk :: rest → bk_status bk = Pending →
  ∃ d', Booking.confirm_payment bookingId paymentId method d
        = (Booking.PaymentConfirmed, d')
    ∧ payments d'
      = payments d ++ [Payment (next_payment_id d) bookingId (bk_total_amount bk)
                               method paymentId Completed]
    ∧ ∀ paymentId' method',
        Booking.confirm_payment bookingId paymentId' method' d'
        = (Booking.Error 400 "Booking is not in pending status", d').
Proof.
  intros Hsel Hpending. unfold Booking.confirm_payment at 1. rewrite Hsel, Hpending.
  simpl.
  assert (Hsel' : select_booking bookingId (confirm_booking_row bookingId d)
                  = List.map (set_status_and_payment Confirmed Completed) (bk :: rest)).
  { unfold select_booking, confirm_booking_row. simpl.
    rewrite select_booking_after_update by done.
    unfold select_booking in Hsel. by rewrite Hsel. }
  unfold insert_payment. rewrite (filter_cons_existsb _ _ _ _ Hsel').
  eexists. split; [reflexivity |]. split; [reflexivity |].
  intros paymentId' method'. unfold Booking.confirm_payment.
  unfold select_booking in *. simpl in *. by rewrite Hsel'.
Qed.

(** X14. Every delivery is acknowledged exactly once, whatever the
    gateway answers and whether or not the booking service can be reached:
    at once after a success or a decline, from the timer after a retry, at
    once when the message is dropped. *)
Theorem worker_acks_once (now : Z) (gw : Worker.gateway_result) (reachable : bool)
    (m : Worker.message) (d : db) :
  Worker.acked (fst (Worker.processPayment now gw reachable (Some m) d)) = [m].
Proof.
  assert (Hcatch : Worker.acked (Worker.on_processing_error m) = [m]).
  { unfold Worker.on_processing_error. by destruct (Worker.retryCount m <? 3). }
  unfold Worker.processPayment, Worker.process_delivery.
  destruct gw as [pid | err]; destruct reachable; try exact Hcatch.
  - destruct (Booking.confirm_payment _ _ _ d) as [r d'].
    by destruct (Worker.resolves r).
  - destruct (Booking.cancel_booking _ _ _ d) as [r d'].
    by destruct (Worker.resolves r).
Qed.

(** X15. The same payment message delivered twice, the gateway accepting
    both times, confirms once.  The first delivery confirms the pending
    booking and records one completed payment of the booking's
    [total_amount] by credit card; the second is refused by the booking
    service, takes the worker's retry path, and changes nothing. *)
Theorem worker_duplicate_delivery (now now' : Z) (pid pid' : string)
    (m : Worker.message) (d : db) (bk : booking) (rest : list booking) :
  select_booking (Worker.bookingId (Worker.content m)) d = bk :: rest →
  bk_status bk = Pending →
  let first := Worker.processPayment now (Worker.GatewaySuccess pid) true (Some m) d in
  let second :=
    Worker.processPayment now' (Worker.GatewaySuccess pid') true (Some m) (snd first) in
  fst first
    = [Worker.Now (Worker.SendToQueue "payment_results"
                     (Worker.PaymentSuccess (Worker.content m) pid) None);
       Worker.Now (Worker.Ack m)]
  ∧ payments (snd first)
    = payments d ++ [Payment (next_payment_id d) (Worker.bookingId (Worker.content m))
                             (bk_total_amount bk) credit_card pid Completed]
  ∧ fst second = Worker.on_processing_error m
  ∧ snd second = snd first.
Proof.
  intros Hsel Hp first second.
  destruct (confirm_payment_pending (Worker.bookingId (Worker.content m)) pid
              credit_card d bk rest Hsel Hp) as (d1 & Hrun & Hpay & Hagain).
  assert (Hfirst : first
                   = ([Worker.Now (Worker.SendToQueue "payment_results"
                                     (Worker.PaymentSuccess (Worker.content m) pid) None);
                       Worker.Now (Worker.Ack m)], d1)).
  { unfold first, Worker.processPayment, Worker.process_delivery. by rewrite Hrun. }
  unfold second. rewrite Hfirst. simpl.
  split; [done |]. split; [exact Hpay |].
  unfold Worker.process_delivery. rewrite (Hagain pid' credit_card). done.
Qed.

Lemma worker_duplicate_delivery_witness :
  payments (snd (Worker.processPayment 0 (Worker.GatewaySuccess "PAY_1") true
                   (Some Sample.payment_message) Sample.reserved))
    = [Payment 1 1 10000 credit_card "PAY_1" Completed]
  ∧ snd (Worker.processPayment 9 (Worker.GatewaySuccess "PAY_2") true
           (Some Sample.payment_message)
           (snd (Worker.processPayment 0 (Worker.GatewaySuccess "PAY_1") true
                   (Some Sample.payment_message) Sample.reserved)))
    = snd (Worker.processPayment 0 (Worker.GatewaySuccess "PAY_1") true
             (Some Sample.payment_message) Sample.reserved).
Proof.
  assert (Hsel : select_booking
                   (Worker.bookingId (Worker.content Sample.payment_message))
                   Sample.reserved
                 = [Booking 1 7 1 2 10000 Pending "BK1" PayPending 900000])
    by reflexivity.
  destruct (worker_duplicate_delivery 0 9 "PAY_1" "PAY_2" Sample.payment_message
              Sample.reserved _ _ Hsel eq_refl) as (_ & Hpay & _ & Hsame).
  split; [exact Hpay | exact Hsame].
Defined.

(** X16. A payment message for a booking that is not pending (already
    confirmed, cancelled or expired) or that does not exist is never
    settled by a gateway success: the worker takes its retry path and the
    database stays as it was. *)
Theorem worker_success_needs_pending (now : Z) (pid : string) (reachable : bool)
    (m : Worker.message) (d : db) :
  (∀ bk rest, select_booking (Worker.bookingId (Worker.content m)) d = bk :: rest →
              bk_status bk ≠ Pending) →
  Worker.processPayment now (Worker.GatewaySuccess pid) reachable (Some m) d
  = (Worker.on_processing_error m, d).
Proof.
  intros Hnot. unfold Worker.processPayment, Worker.process_delivery.
  destruct reachable; [| done].
  unfold Booking.confirm_payment.
  destruct (select_booking _ d) as [| bk rest] eqn:Hsel; [done |].
  rewrite bool_decide_eq_false_2 by (by apply (Hnot bk rest)). done.
Qed.

Lemma worker_success_needs_pending_witness :
  Worker.processPayment 0 (Worker.GatewaySuccess "PAY_3") true
                        (Some Sample.payment_message) Sample.swept
  = (Worker.on_processing_error Sample.payment_message, Sample.swept).
Proof.
  apply worker_success_needs_pending.
  intros bk rest Hsel. vm_compute in Hsel. injection Hsel as <- _. discriminate.
Defined.

(** X17. When the gateway declines, the worker's compensating cancel
    releases a pending booking of the message's user: the booking becomes
    cancelled, its tickets go back to its event, no payment row is
    written, the failure is published and the message acknowledged without
    a retry. *)
Theorem worker_decline_cancels (now : Z) (err : string) (m : Worker.message)
    (d : db) (bk : booking) (rest : list booking) :
  select_booking_of_user (Worker.bookingId (Worker.content m))
                         (Worker.userId (Worker.content m)) d = bk :: rest →
  bk_status bk = Pending →
  let out := Worker.processPayment now (Worker.GatewayFailure err) true (Some m) d in
  fst out
    = [Worker.Now (Worker.SendToQueue "payment_results"
                     (Worker.PaymentFailure (Worker.content m) err) None);
       Worker.Now (Worker.Ack m)]
  ∧ bookings (snd out)
    = List.map (λ b, if bk_id b =? Worker.bookingId (Worker.content m)
                     then set_status Cancelled b else b) (bookings d)
  ∧ events (snd out)
    = List.map (λ x, if ev_id x =? bk_event_id bk
                     then add_available (bk_ticket_count bk) x else x) (events d)
  ∧ payments (snd out) = payments d
  ∧ Worker.republished (fst out) = []
  ∧ List.map bk_status (bookings (snd out))
    = List.map (λ b, if bk_id b =? Worker.bookingId (Worker.content m)
                     then Cancelled else bk_status b) (bookings d)
  ∧ List.map ev_available_tickets (events (snd out))
    = List.map (λ x, if ev_id x =? bk_event_id bk
                     then ev_available_tickets x + bk_ticket_count bk
                     else ev_available_tickets x) (events d).
Proof.
  intros Hsel Hp. simpl.
  unfold Worker.process_delivery, Booking.cancel_booking.
  rewrite Hsel, Hp. simpl. repeat split.
  - rewrite List.map_map. apply List.map_ext. intros b.
    by destruct (bk_id b =? Worker.bookingId (Worker.content m)).
  - rewrite List.map_map. apply List.map_ext. intros x.
    by destruct (ev_id x =? bk_event_id bk).
Qed.

Lemma worker_decline_cancels_witness :
  List.map bk_status
    (bookings (snd (Worker.processPayment 0 (Worker.GatewayFailure "declined") true
                      (Some Sample.payment_message) Sample.reserved)))
    = [Cancelled]
  ∧ payments (snd (Worker.processPayment 0 (Worker.GatewayFailure "declined") true
                     (Some Sample.payment_message) Sample.reserved))
    = []
  ∧ List.map ev_available_tickets (events Sample.reserved) = [0]
  ∧ List.map ev_available_tickets
      (events (snd (Worker.processPayment 0 (Worker.GatewayFailure "declined") true
                      (Some Sample.payment_message) Sample.reserved)))
    = [2].
Proof.
  assert (Hsel : select_booking_of_user
                   (Worker.bookingId (Worker.content Sample.payment_message))
                   (Worker.userId (Worker.content Sample.payment_message))
                   Sample.reserved
                 = [Booking 1 7 1 2 10000 Pending "BK1" PayPending 900000])
    by reflexivity.
  destruct (worker_decline_cancels 0 "declined" Sample.payment_message
              Sample.reserved _ _ Hsel eq_refl)
    as (_ & Hbs & _ & Hpay & _ & _ & Havail).
  split; [by rewrite Hbs |]. split; [exact Hpay |]. split; [reflexivity |].
  rewrite Havail. reflexivity.
Defined.

(** X18. A decline that reaches a booking already confirmed (the message
    was redelivered or retried) is compensated like any other: at least 24
    hours before the event the confirmed booking is cancelled and its
    tickets are released, while its completed payment row stays; closer to
    the event the cancel is refused, nothing changes, and the worker takes
    its retry path. *)
Theorem worker_decline_after_confirmation (now : Z) (err : string)
    (m : Worker.message) (d : db) (bk : booking) (rest : list booking)
    (ev : event) (evs : list event) :
  select_booking_of_user (Worker.bookingId (Worker.content m))
                         (Worker.userId (Worker.content m)) d = bk :: rest →
  bk_status bk = Confirmed →
  select_event (bk_event_id bk) d = ev :: evs →
  let out := Worker.processPayment now (Worker.GatewayFailure err) true (Some m) d in
  (24 * (1000 * 60 * 60) ≤ ev_event_date ev - now →
     bookings (snd out)
       = List.map (λ b, if bk_id b =? Worker.bookingId (Worker.content m)
                        then set_status Cancelled b else b) (bookings d)
     ∧ events (snd out)
       = List.map (λ x, if ev_id x =? bk_event_id bk
                        then add_available (bk_ticket_count bk) x else x) (events d)
     ∧ payments (snd out) = payments d
     ∧ Worker.acked (fst out) = [m] ∧ Worker.republished (fst out) = []
     ∧ List.map bk_status (bookings (snd out))
       = List.map (λ b, if bk_id b =? Worker.bookingId (Worker.content m)
                        then Cancelled else bk_status b) (bookings d)
     ∧ List.map ev_available_tickets (events (snd out))
       = List.map (λ x, if ev_id x =? bk_event_id bk
                        then ev_available_tickets x + bk_ticket_count bk
                        else ev_available_tickets x) (events d))
  ∧ (ev_event_date ev - now < 24 * (1000 * 60 * 60) →
     out = (Worker.on_processing_error m, d)).
Proof.
  intros Hsel Hc Hev. simpl.
  unfold Worker.process_delivery, Booking.cancel_booking.
  rewrite Hsel, Hc. simpl. rewrite Hev. unfold Booking.hours_until_lt.
  split; intros Hh.
  - assert (Hb : (ev_event_date ev - now <? 24 * (1000 * 60 * 60)) = false) by lia.
    rewrite Hb. simpl. repeat split.
    + rewrite List.map_map. apply List.map_ext. intros b.
      by destruct (bk_id b =? Worker.bookingId (Worker.content m)).
    + rewrite List.map_map. apply List.map_ext. intros x.
      by destruct (ev_id x =? bk_event_id bk).
  - assert (Hb : (ev_event_date ev - now <? 24 * (1000 * 60 * 60)) = true) by lia.
    rewrite Hb. simpl. done.
Qed.

Lemma worker_decline_after_confirmation_witness :
  List.map (λ b, (bk_status b, bk_payment_status b))
    (bookings (snd (Worker.processPayment 0 (Worker.GatewayFailure "declined") true
                      (Some Sample.payment_message) Sample.paid)))
    = [(Cancelled, Completed)]
  ∧ payments (snd (Worker.processPayment 0 (Worker.GatewayFailure "declined") true
                     (Some Sample.payment_message) Sample.paid))
    = payments Sample.paid
  ∧ List.map ev_available_tickets (events Sample.paid) = [0]
  ∧ List.map ev_available_tickets
      (events (snd (Worker.processPayment 0 (Worker.GatewayFailure "declined") true
                      (Some Sample.payment_message) Sample.paid)))
    = [2].
Proof.
  assert (Hsel : select_booking_of_user
                   (Worker.bookingId (Worker.content Sample.payment_message))
                   (Worker.userId (Worker.content Sample.payment_message))
                   Sample.paid
                 = [Booking 1 7 1 2 10000 Confirmed "BK1" Completed 900000])
    by reflexivity.
  assert (Hev : select_event 1 Sample.paid
                = [Event 1 (240 * Sample.hour) 2 0 5000 Active]) by reflexivity.
  destruct (worker_decline_after_confirmation 0 "declined" Sample.payment_message
              Sample.paid _ _ _ _ Hsel eq_refl Hev) as [Hearly _].
  destruct Hearly as (Hbs & _ & Hpay & _ & _ & _ & Havail);
    [vm_compute; discriminate |].
  split; [by rewrite Hbs |]. split; [exact Hpay |]. split; [reflexivity |].
  rewrite Havail. reflexivity.
Defined.

(** ** The event service *)

Section EventUpdate.

Import Stock.

Variables (now id : Z) (body : EventService.update_body).
Variables (redis : Lock.store) (d : db).

Lemma update_event_updated (redis' : Lock.store) (d' : db) :
  EventService.update_event now id body redis d
    = (EventService.EventUpdated, redis', d') →
  ∃ existing others,
    select_event id d = existing :: others
    ∧ redis' = EventService.invalidate now "event" redis
    ∧ bookings d' = bookings d
    ∧ (∀ n, EventService.up_totalTickets body = Some n → n ≠ 0 →
            sold existing ≤ n
            ∧ events d'
              = List.map (λ x, if ev_id x =? id
                               then EventService.update_row body (n - sold existing) x
                               else x) (events d))
    ∧ (EventService.truthy_number (EventService.up_totalTickets body) = false →
         events d'
         = List.map (λ x, if ev_id x =? id
                          then EventService.update_row body
                                 (ev_available_tickets existing) x
                          else x) (events d)).
Proof.
  unfold EventService.update_event.
  destruct (select_event id d) as [| existing others]; [discriminate |].
  fold (sold existing).
  destruct (EventService.truthy_number (EventService.up_totalTickets body)) eqn:Htr.
  - destruct (EventService.up_totalTickets body) as [n |] eqn:Hn; [| discriminate].
    simpl. destruct (n <? sold existing) eqn:Hlt; [discriminate |].
    intros Heq. injection Heq as <- <-. exists existing, others.
    split; [done |]. split; [done |]. split; [done |]. split; [| discriminate].
    intros n' Hn' _. injection Hn' as <-. split; [lia | done].
  - simpl. intros Heq. injection Heq as <- <-. exists existing, others.
    split; [done |]. split; [done |]. split; [done |]. split; [| done].
    intros n Hn Hn0. exfalso. rewrite Hn in Htr. simpl in Htr.
    assert (Hz : (n =? 0) = false) by lia. by rewrite Hz in Htr.
Qed.

(** X19. An update of an event that is accepted, with a [totalTickets]
    other than 0 or with none, keeps the number of tickets sold
    ([total_tickets - available_tickets]) and therefore the inventory
    invariant; a new total leaves [available_tickets] at zero or above. *)
Theorem update_event_preserves_invariant (redis' : Lock.store) (d' : db) :
  unique_event_ids d →
  EventService.up_totalTickets body ≠ Some 0 →
  EventService.update_event now id body redis d
    = (EventService.EventUpdated, redis', d') →
  (Inventory.invariant d → Inventory.invariant d')
  ∧ List.map sold (events d') = List.map sold (events d)
  ∧ (∀ n x, EventService.up_totalTickets body = Some n →
            In x (events d') → ev_id x = id → 0 ≤ ev_available_tickets x).
Proof.
  intros Huniq Hnz Hrun.
  destruct (update_event_updated redis' d' Hrun)
    as (existing & others & Hsel & _ & Hbs & Hsome & Hnone).
  destruct (filter_head_In _ _ _ _ Hsel) as [Hin Hid].
  assert (Hsame : ∀ x, In x (events d) → (ev_id x =? id) = true → x = existing).
  { intros x Hx Hxid. apply (unique_event_id (events d)); try done. lia. }
  assert (Hevents : ∃ na,
    events d' = List.map (λ x, if ev_id x =? id
                               then EventService.update_row body na x else x)
                         (events d)
    ∧ default (ev_total_tickets existing) (EventService.up_totalTickets body) - na
      = sold existing
    ∧ (∀ n, EventService.up_totalTickets body = Some n → 0 ≤ na)).
  { destruct (EventService.up_totalTickets body) as [n |] eqn:Hn.
    - assert (Hn0 : n ≠ 0) by congruence.
      destruct (Hsome n eq_refl Hn0) as [Hge Hev].
      exists (n - sold existing). split; [done |]. simpl. split; [lia |].
      intros n' Hn'. lia.
    - exists (ev_available_tickets existing). split; [by apply Hnone |].
      simpl. unfold sold. split; [lia | discriminate]. }
  destruct Hevents as (na & Hev & Hsold & Hna).
  assert (Hsoldmap : List.map sold (events d') = List.map sold (events d)).
  { rewrite Hev, List.map_map. apply List.map_ext_in. intros x Hx.
    destruct (ev_id x =? id) eqn:Hxid; [| done].
    rewrite (Hsame x Hx Hxid). unfold sold at 1. simpl. exact Hsold. }
  split; [| split; [exact Hsoldmap |]].
  - unfold Inventory.invariant, Inventory.balanced. rewrite Hbs, Hev.
    intros Hinv. apply List.Forall_map. rewrite List.Forall_forall in *.
    intros x Hx. specialize (Hinv x Hx).
    destruct (ev_id x =? id) eqn:Hxid; [| done].
    rewrite (Hsame x Hx Hxid) in *. simpl. unfold sold in Hsold. lia.
  - intros n x Hn Hx Hxid. rewrite Hev in Hx. apply in_map_iff in Hx.
    destruct Hx as (x0 & Hx0 & Hin0).
    destruct (ev_id x0 =? id) eqn:Hx0id.
    + subst x. simpl. by apply (Hna n).
    + subst x. lia.
Qed.

End EventUpdate.

Lemma update_event_preserves_invariant_witness :
  Inventory.invariant Sample.reserved
  ∧ Inventory.invariant
      (snd (EventService.update_event 10 1 Fixture.raise_total Fixture.locked
                                      Sample.reserved))
  ∧ List.map (λ x, (ev_total_tickets x, ev_available_tickets x))
      (events (snd (EventService.update_event 10 1 Fixture.raise_total Fixture.locked
                                              Sample.reserved)))
    = [(5, 3)].
Proof.
  assert (Hinv : Inventory.invariant Sample.reserved)
    by (apply invariantb_spec; reflexivity).
  assert (Huniq : Stock.unique_event_ids Sample.reserved)
    by (repeat constructor; simpl; tauto).
  assert (Hnz : EventService.up_totalTickets Fixture.raise_total ≠ Some 0)
    by discriminate.
  assert (Hrun : EventService.update_event 10 1 Fixture.raise_total Fixture.locked
                                           Sample.reserved
                 = (EventService.EventUpdated, ∅,
                    snd (EventService.update_event 10 1 Fixture.raise_total
                                                   Fixture.locked Sample.reserved)))
    by (vm_compute; reflexivity).
  destruct (update_event_preserves_invariant 10 1 Fixture.raise_total Fixture.locked
              Sample.reserved _ _ Huniq Hnz Hrun) as (Hkeep & _ & _).
  split; [exact Hinv |]. split; [exact (Hkeep Hinv) | reflexivity].
Defined.

Lemma keys_with_prefix_spec (now : Z) (prefix key : string) (s : Lock.store) :
  In key (EventService.keys_with_prefix now prefix s)
  ↔ String.prefix prefix key = true ∧ is_Some (Lock.get now s key).
Proof.
  unfold EventService.keys_with_prefix. rewrite filter_In, andb_true_iff.
  rewrite bool_decide_eq_true. split.
  - tauto.
  - intros [Hp Hget]. split; [| done].
    destruct Hget as [v Hget]. unfold Lock.get in Hget.
    destruct (s !! key) as [entry |] eqn:Hlookup; [| discriminate].
    apply in_map_iff. exists (key, entry). split; [done |].
    apply list_elem_of_In. by apply elem_of_map_to_list.
Qed.

(** After an invalidation no key with the prefix exists, and the keys
    without it are as before. *)
Lemma invalidate_spec (now : Z) (prefix key : string) (s : Lock.store) :
  (String.prefix prefix key = true →
     Lock.get now (EventService.invalidate now prefix s) key = None)
  ∧ (String.prefix prefix key = false →
     EventService.invalidate now prefix s !! key = s !! key).
Proof.
  assert (Hdel : EventService.invalidate now prefix s
                 = foldr delete s (EventService.keys_with_prefix now prefix s)).
  { unfold EventService.invalidate.
    by destruct (EventService.keys_with_prefix now prefix s). }
  rewrite Hdel. split; intros Hp.
  - destruct (decide (key ∈ EventService.keys_with_prefix now prefix s)) as [Hin | Hout].
    + unfold Lock.get. by rewrite lookup_foldr_delete.
    + unfold Lock.get. rewrite lookup_foldr_delete_not_elem_of by done.
      destruct (Lock.get now s key) as [v |] eqn:Hget; [| exact Hget].
      exfalso. apply Hout. apply list_elem_of_In. apply keys_with_prefix_spec.
      split; [done | by eexists].
  - apply lookup_foldr_delete_not_elem_of. intros Hin.
    apply list_elem_of_In in Hin. apply keys_with_prefix_spec in Hin.
    destruct Hin as [Hp' _]. congruence.
Qed.

(** X20. The cache invalidation of an accepted event update deletes
    every key that starts with "event", and the lock keys of the booking
    service start with "event": on a key space shared by the two services,
    the lock of every event reads as free after the update, whoever held
    it.  The invalidation after the creation of an event deletes the keys
    that start with "events:" and leaves every lock as it was. *)
Theorem update_event_drops_locks (now id : Z) (body : EventService.update_body)
    (redis redis' : Lock.store) (d d' : db) :
  EventService.update_event now id body redis d
    = (EventService.EventUpdated, redis', d') →
  (∀ eventId, Lock.get now redis' (Booking.lockKey eventId) = None)
  ∧ (∀ now' insertId body' eventId,
       snd (fst (EventService.create_event now' insertId body' redis d))
         !! Booking.lockKey eventId
       = redis !! Booking.lockKey eventId).
Proof.
  intros Hrun. split.
  - intros eventId.
    assert (redis' = EventService.invalidate now "event" redis) as ->.
    { unfold EventService.update_event in Hrun.
      destruct (select_event id d); [discriminate |].
      destruct (_ && _); [discriminate |]. by injection Hrun as <- _. }
    by apply invalidate_spec.
  - intros now' insertId body' eventId. unfold EventService.create_event.
    match goal with |- context [if ?c then _ else _] => destruct c end; [done |].
    match goal with |- context [if ?c then _ else _] => destruct c end; [done |].
    destruct (EventService.cr_eventDate body'); [| done].
    destruct (EventService.cr_totalTickets body'); try done.
    destruct (EventService.cr_price body'); try done.
    simpl. by apply invalidate_spec.
Qed.

Lemma update_event_drops_locks_witness :
  Lock.get 10 Fixture.locked (Booking.lockKey (Js.JNum 1)) = Some "uuid-1"
  ∧ Lock.get 10
      (snd (fst (EventService.update_event 10 1 Fixture.raise_total Fixture.locked
                                           Sample.reserved)))
      (Booking.lockKey (Js.JNum 1))
    = None.
Proof.
  split; [reflexivity |].
  assert (Hrun : EventService.update_event 10 1 Fixture.raise_total Fixture.locked
                                           Sample.reserved
                 = (EventService.EventUpdated,
                    snd (fst (EventService.update_event 10 1 Fixture.raise_total
                                Fixture.locked Sample.reserved)),
                    snd (EventService.update_event 10 1 Fixture.raise_total
                           Fixture.locked Sample.reserved)))
    by (vm_compute; reflexivity).
  destruct (update_event_drops_locks 10 1 Fixture.raise_total Fixture.locked _
              Sample.reserved _ Hrun) as [Hdrop _].
  apply Hdrop.
Defined.

(** X21. An event is created only with a title, a venue, a date, a
    positive number of tickets and a positive price (a price of 0 counts
    as missing); it then is active with all its tickets available, and the
    inventory invariant is kept when no booking refers to the new id. *)
Theorem create_event_created (now insertId : Z) (body : EventService.create_body)
    (redis redis' : Lock.store) (d d' : db) :
  EventService.create_event now insertId body redis d
    = (EventService.EventCreated insertId, redis', d') →
  EventService.truthy_text (EventService.cr_title body) = true
  ∧ EventService.truthy_text (EventService.cr_venue body) = true
  ∧ ∃ date totalTickets price,
    EventService.cr_eventDate body = Some date
    ∧ EventService.cr_totalTickets body = Js.JNum totalTickets
    ∧ EventService.cr_price body = Js.JNum price
    ∧ 0 < totalTickets ∧ 0 < price
    ∧ events d'
      = events d ++ [Event insertId date totalTickets totalTickets price Active]
    ∧ bookings d' = bookings d
    ∧ ((∀ b, In b (bookings d) → bk_event_id b ≠ insertId) →
       Inventory.invariant d → Inventory.invariant d').
Proof.
  unfold EventService.create_event.
  match goal with |- (if ?c then _ else _) = _ → _ => destruct c eqn:Hmissing end;
    [discriminate |].
  match goal with |- (if ?c then _ else _) = _ → _ => destruct c eqn:Hrange end;
    [discriminate |].
  destruct (EventService.cr_eventDate body) as [date |];
    [| simpl in *; discriminate].
  destruct (EventService.cr_totalTickets body) as [| | n];
    try (simpl in *; discriminate).
  destruct (EventService.cr_price body) as [| | p];
    try (simpl in *; discriminate).
  intros Heq. injection Heq as <- <-.
  apply orb_false_iff in Hrange. destruct Hrange as [Hn Hp].
  unfold Js.le_num, Js.lt_num in Hn, Hp. simpl in Hn, Hp.
  apply orb_false_iff in Hmissing. destruct Hmissing as [Hmissing Hprice].
  apply orb_false_iff in Hmissing. destruct Hmissing as [Hmissing Htotal].
  apply orb_false_iff in Hmissing. destruct Hmissing as [Hmissing _].
  apply orb_false_iff in Hmissing. destruct Hmissing as [Htitle Hvenue].
  apply negb_false_iff in Htitle, Hvenue, Hprice.
  simpl in Hprice. apply negb_true_iff in Hprice.
  split; [exact Htitle |]. split; [exact Hvenue |].
  exists date, n, p.
  repeat split; try done; try lia.
  intros Hfresh Hinv. unfold Inventory.invariant in *. simpl.
  apply Forall_app. split.
  - exact Hinv.
  - repeat constructor. unfold Inventory.balanced. simpl.
    assert (Hzero : Inventory.reserved_tickets insertId (bookings d) = 0).
    { induction (bookings d) as [| b bs IH]; [done |]. simpl.
      unfold Inventory.held_by.
      assert (Hb : (bk_event_id b =? insertId) = false).
      { apply Z.eqb_neq. apply Hfresh. by left. }
      rewrite Hb. simpl. apply IH. intros b' Hb'. apply Hfresh. by right. }
    lia.
Qed.

Lemma create_event_created_witness :
  events (snd (EventService.create_event 10 2 Fixture.concert Fixture.locked
                                         Sample.reserved))
    = events Sample.reserved ++ [Event 2 (240 * Sample.hour) 100 100 5000 Active]
  ∧ Inventory.invariant
      (snd (EventService.create_event 10 2 Fixture.concert Fixture.locked
                                      Sample.reserved)).
Proof.
  assert (Hrun : EventService.create_event 10 2 Fixture.concert Fixture.locked
                                           Sample.reserved
                 = (EventService.EventCreated 2,
                    snd (fst (EventService.create_event 10 2 Fixture.concert
                                Fixture.locked Sample.reserved)),
                    snd (EventService.create_event 10 2 Fixture.concert
                           Fixture.locked Sample.reserved)))
    by (vm_compute; reflexivity).
  destruct (create_event_created 10 2 Fixture.concert Fixture.locked _
              Sample.reserved _ Hrun)
    as (_ & _ & date & n & p & Hd & Hn & Hp & _ & _ & Hev & _ & Hinv).
  injection Hd as <-. injection Hn as <-. injection Hp as <-.
  split; [exact Hev |].
  apply Hinv.
  - intros b [<- | []]. simpl. lia.
  - apply invariantb_spec. reflexivity.
Defined.

(** ** The manual payment route *)

(** X22. A manual payment records a completed payment of the amount the
    caller names and touches neither the booking nor the events: the
    booking stays pending, so a later confirmation still goes through and
    records a second completed payment for the same booking.  A declined
    manual payment writes nothing. *)
Theorem manual_payment_then_confirmation (b a : Z) (method : option payment_method)
    (p1 p2 err : string) (m2 : payment_method) (d : db)
    (bk : booking) (rest : list booking) :
  b ≠ 0 → a ≠ 0 →
  select_booking b d = bk :: rest → bk_status bk = Pending →
  let body := {| PaymentApi.bookingId := Js.JNum b; PaymentApi.amount := Js.JNum a;
                 PaymentApi.paymentMethod := method |} in
  let first := PaymentApi.process (Worker.GatewaySuccess p1) body d in
  let row1 := Payment (next_payment_id d) b a (default credit_card method) p1
                      Completed in
  fst first = PaymentApi.Processed p1
  ∧ bookings (snd first) = bookings d
  ∧ events (snd first) = events d
  ∧ payments (snd first) = payments d ++ [row1]
  ∧ (∃ d2, Booking.confirm_payment b p2 m2 (snd first) = (Booking.PaymentConfirmed, d2)
           ∧ payments d2
             = payments d ++ [row1; Payment (next_payment_id d + 1) b
                                            (bk_total_amount bk) m2 p2 Completed])
  ∧ PaymentApi.process (Worker.GatewayFailure err) body d = (PaymentApi.Declined err, d).
Proof.
  intros Hb Ha Hsel Hp body first row1.
  assert (Hexists : existsb (λ x, bk_id x =? b) (bookings d) = true)
    by exact (filter_cons_existsb _ _ _ _ Hsel).
  assert (Hb' : (b =? 0) = false) by lia.
  assert (Ha' : (a =? 0) = false) by lia.
  assert (Hfirst : first
                   = (PaymentApi.Processed p1,
                      Database (users d) (events d) (bookings d)
                               (payments d ++ [row1])
                               (next_booking_id d) (next_payment_id d + 1))).
  { unfold first, PaymentApi.process, body. simpl. rewrite Hb', Ha'. simpl.
    unfold insert_payment. by rewrite Hexists. }
  rewrite Hfirst. simpl. repeat split.
  - destruct (confirm_payment_pending b p2 m2
                (Database (users d) (events d) (bookings d) (payments d ++ [row1])
                          (next_booking_id d) (next_payment_id d + 1))
                bk rest Hsel Hp) as (d2 & Hrun & Hpay & _).
    exists d2. split; [exact Hrun |]. rewrite Hpay. simpl.
    by rewrite <- List.app_assoc.
  - unfold PaymentApi.process, body. simpl. by rewrite Hb', Ha'.
Qed.

Lemma manual_payment_then_confirmation_witness :
  payments (snd (PaymentApi.process (Worker.GatewaySuccess "PAY_9")
                   Fixture.manual_payment Sample.reserved))
    = [Payment 1 1 10000 credit_card "PAY_9" Completed]
  ∧ ∃ d2, Booking.confirm_payment 1 "PAY_1" credit_card
            (snd (PaymentApi.process (Worker.GatewaySuccess "PAY_9")
                    Fixture.manual_payment Sample.reserved))
          = (Booking.PaymentConfirmed, d2)
      ∧ payments d2 = [Payment 1 1 10000 credit_card "PAY_9" Completed;
                       Payment 2 1 10000 credit_card "PAY_1" Completed].
Proof.
  assert (H1 : (1 : Z) ≠ 0) by lia.
  assert (Ha : (10000 : Z) ≠ 0) by lia.
  assert (Hsel : select_booking 1 Sample.reserved
                 = [Booking 1 7 1 2 10000 Pending "BK1" PayPending 900000])
    by reflexivity.
  destruct (manual_payment_then_confirmation 1 10000 None "PAY_9" "PAY_1" "x"
              credit_card Sample.reserved _ _ H1 Ha Hsel eq_refl)
    as (_ & _ & _ & Hpay & Hconfirm & _).
  split; [exact Hpay | exact Hconfirm].
Defined.

(** ** Sequences of requests *)

Section Traces.

Import Stock.

Lemma reserved_tickets_nonneg (eventId : Z) (bs : list booking) :
  Forall (λ b, 1 ≤ bk_ticket_count b ≤ 10) bs →
  0 ≤ Inventory.reserved_tickets eventId bs.
Proof.
  induction 1 as [| b bs Hb _ IH]; simpl; [lia |].
  unfold Inventory.held_by. destruct (_ && _); lia.
Qed.

(** X8. [available_tickets] never goes below zero.  However many
    requests are served, in whatever order and with whatever answers: if
    event ids are distinct, no event has negative [available_tickets] and
    every booking is for 1 to 10 tickets at the start, the same is true at
    the end.  (Nothing is said of the tickets that bookings hold in all:
    after a cancellation of an expired booking they can exceed
    [total_tickets].) *)
Theorem run_all_preserves_stock (ops : list Inventory.operation)
    (locks : Lock.store) (d : db) :
  stock_ok d → stock_ok (snd (Trace.run_all ops locks d)).
Proof.
  revert locks d. induction ops as [| o ops IH]; intros locks d Hok; [done |].
  simpl.
  pose proof (run_keeps_stock o locks d Hok) as Hok'.
  destruct (Inventory.run o locks d) as [[r locks'] d']. by apply IH.
Qed.

(** X9. One active booking per user and event.  Along any sequence of
    requests a user never comes to hold two pending or confirmed bookings
    of one event, and the ids of the bookings stay unique and below the
    counter. *)
Theorem run_all_preserves_one_booking_per_user (ops : list Inventory.operation)
    (locks : Lock.store) (d : db) :
  Inventory.well_formed d → one_booking_per_user d →
  Inventory.well_formed (snd (Trace.run_all ops locks d))
  ∧ one_booking_per_user (snd (Trace.run_all ops locks d)).
Proof.
  revert locks d. induction ops as [| o ops IH]; intros locks d Hwf Hone; [done |].
  simpl.
  pose proof (run_preserves_well_formed o locks d Hwf) as Hwf'.
  pose proof (run_keeps_one_booking_per_user o locks d (proj1 Hwf) Hone) as Hone'.
  destruct (Inventory.run o locks d) as [[r locks'] d']. by apply IH.
Qed.

(** X23. Along any sequence of regular requests the inventory invariant
    holds, and with it every event keeps
    [0 ≤ available_tickets ≤ total_tickets]. *)
Theorem run_all_regular_preserves_invariant (ops : list Inventory.operation)
    (locks : Lock.store) (d : db) :
  Inventory.well_formed d → stock_ok d → Inventory.invariant d →
  Trace.all_regular ops locks d →
  Inventory.invariant (snd (Trace.run_all ops locks d))
  ∧ Forall (λ e, 0 ≤ ev_available_tickets e ≤ ev_total_tickets e)
           (events (snd (Trace.run_all ops locks d))).
Proof.
  revert locks d. induction ops as [| o ops IH]; intros locks d Hwf Hok Hinv Hreg.
  - simpl. split; [done |].
    destruct Hok as (_ & Hav & Hrange).
    unfold Inventory.invariant, Inventory.balanced in Hinv.
    rewrite List.Forall_forall in *. intros x Hx.
    specialize (Hinv x Hx). specialize (Hav x Hx).
    pose proof (reserved_tickets_nonneg (ev_id x) (bookings d)
                  (proj2 (List.Forall_forall _ _) Hrange)).
    lia.
  - simpl in *. destruct Hreg as [Hreg Hrest].
    pose proof (run_preserves_well_formed o locks d Hwf) as Hwf'.
    pose proof (run_keeps_stock o locks d Hok) as Hok'.
    pose proof (run_preserves_invariant o locks d Hwf Hinv Hreg) as Hinv'.
    destruct (Inventory.run o locks d) as [[r locks'] d']. by apply IH.
Qed.

End Traces.

Lemma fresh_in_order :
  Inventory.well_formed Sample.fresh ∧ Stock.stock_ok Sample.fresh
  ∧ Stock.one_booking_per_user Sample.fresh ∧ Inventory.invariant Sample.fresh.
Proof.
  split; [split; constructor |]. split; [| split].
  - split; [| split].
    + repeat constructor. simpl. tauto.
    + repeat constructor. vm_compute. discriminate.
    + constructor.
  - intros u e. simpl. lia.
  - apply invariantb_spec. reflexivity.
Qed.

Lemma run_all_preserves_stock_witness :
  Stock.stock_ok Sample.fresh
  ∧ Stock.stock_ok (snd (Trace.run_all Fixture.requests ∅ Sample.fresh)).
Proof.
  destruct fresh_in_order as (_ & Hok & _).
  split; [exact Hok |].
  exact (run_all_preserves_stock Fixture.requests ∅ Sample.fresh Hok).
Defined.

Lemma run_all_preserves_one_booking_per_user_witness :
  Stock.one_booking_per_user Sample.fresh
  ∧ Stock.one_booking_per_user (snd (Trace.run_all Fixture.requests ∅ Sample.fresh)).
Proof.
  destruct fresh_in_order as (Hwf & _ & Hone & _).
  split; [exact Hone |].
  exact (proj2 (run_all_preserves_one_booking_per_user Fixture.requests ∅
                  Sample.fresh Hwf Hone)).
Defined.

Lemma run_all_regular_preserves_invariant_witness :
  Inventory.invariant (snd (Trace.run_all Fixture.requests ∅ Sample.fresh))
  ∧ Forall (λ e, 0 ≤ ev_available_tickets e ≤ ev_total_tickets e)
           (events (snd (Trace.run_all Fixture.requests ∅ Sample.fresh))).
Proof.
  destruct fresh_in_order as (Hwf & Hok & _ & Hinv).
  apply (run_all_regular_preserves_invariant Fixture.requests ∅ Sample.fresh
           Hwf Hok Hinv).
  simpl. split; [done |]. split; [done |]. split; [done |]. split; [| done].
  intros bk rest Hsel. vm_compute in Hsel. injection Hsel as <- _. discriminate.
Defined.

(** ** What the sweep leaves alone *)

(** X24. A sweep writes nothing but the status of the pending bookings
    it expires and the [available_tickets] of events: users and payments
    are untouched, no booking is added or removed, and every booking that
    is not pending, or whose [expires_at] is not before the clock of the
    [UPDATE], is left exactly as it was. *)
Theorem cleanup_expired_frame (now_select now_update : Z) (d : db) :
  users (snd (Booking.cleanup_expired now_select now_update d)) = users d
  ∧ payments (snd (Booking.cleanup_expired now_select now_update d)) = payments d
  ∧ List.map bk_id (bookings (snd (Booking.cleanup_expired now_select now_update d)))
    = List.map bk_id (bookings d)
  ∧ (∀ i b, bookings d !! i = Some b →
       bk_status b ≠ Pending ∨ now_update ≤ bk_expires_at b →
       bookings (snd (Booking.cleanup_expired now_select now_update d)) !! i = Some b).
Proof.
  assert (Husers : ∀ sel d0,
    users (fold_left
             (λ acc b, add_available_tickets (bk_ticket_count b) (bk_event_id b) acc)
             sel d0) = users d0).
  { induction sel as [| b sel IH]; intros d0; [done |]. simpl. by rewrite IH. }
  pose proof (cleanup_expired_bookings now_select now_update d) as Hdb.
  cbv zeta in Hdb.
  destruct Hdb as [[_ Heq] | (Hsel & Hbs & Hpay & _)].
  { rewrite Heq. repeat split. tauto. }
  split; [| split; [exact Hpay | split]].
  - unfold Booking.cleanup_expired.
    destruct (select_expired now_select d) as [| b0 sel]; [done |].
    cbv zeta. unfold snd, expire_bookings, with_bookings. cbn [users].
    apply (Husers (b0 :: sel) d).
  - rewrite Hbs, List.map_map. apply List.map_ext. intros b.
    by destruct (is_expired_pending now_update b).
  - intros i b Hi Hkeep. rewrite Hbs.
    change (List.map ?f ?l) with (f <$> l). rewrite list_lookup_fmap, Hi. simpl.
    assert (Hno : is_expired_pending now_update b = false).
    { unfold is_expired_pending. destruct Hkeep as [Hst | Hexp].
      - by rewrite bool_decide_eq_false_2.
      - assert (Hb : (bk_expires_at b <? now_update) = false) by lia.
        rewrite Hb. apply andb_false_r. }
    by rewrite Hno.
Qed.

Lemma cleanup_expired_frame_witness :
  bookings Sample.paid !! 0%nat
    = Some (Booking 1 7 1 2 10000 Confirmed "BK1" Completed 900000)
  ∧ bookings (snd (Booking.cleanup_expired 900001 900001 Sample.paid)) !! 0%nat
    = Some (Booking 1 7 1 2 10000 Confirmed "BK1" Completed 900000).
Proof.
  assert (Hi : bookings Sample.paid !! 0%nat
               = Some (Booking 1 7 1 2 10000 Confirmed "BK1" Completed 900000))
    by reflexivity.
  split; [exact Hi |].
  destruct (cleanup_expired_frame 900001 900001 Sample.paid) as (_ & _ & _ & Hkeep).
  apply (Hkeep 0%nat _ Hi). left. discriminate.
Defined.

(** ** The simplified booking service *)

(** X25. The simplified service reserves whenever the three fields are
    non-zero numbers, the event is active with at least [ticketCount]
    tickets available, the user is registered and the reference is unused.
    Nothing else is asked: not the date of the event, not a lock, not the
    user's other bookings, and no bound on [ticketCount], so that a
    negative count is accepted and raises [available_tickets].  Each such
    reservation still keeps the inventory invariant. *)
Theorem create_booking_v2_accepts (now : Z) (bookingReference : string) (u e t : Z)
    (d : db) (ev : event) (rest : list event) :
  u ≠ 0 → e ≠ 0 → t ≠ 0 →
  select_active_event e d = ev :: rest →
  t ≤ ev_available_tickets ev →
  In u (users d) →
  (∀ b, In b (bookings d) → bk_booking_reference b ≠ bookingReference) →
  let body := {| Booking.userId := Js.JNum u; Booking.eventId := Js.JNum e;
                 Booking.ticketCount := Js.JNum t |} in
  let out := BookingV2.create_booking now bookingReference body d in
  fst out = Booking.BookingCreated (next_booking_id d) bookingReference
                                   (ev_price ev * t) t
  ∧ bookings (snd out)
    = bookings d ++ [Booking (next_booking_id d) u e t (ev_price ev * t) Pending
                             bookingReference PayPending (now + reservation_window)]
  ∧ events (snd out)
    = List.map (λ x, if ev_id x =? e then add_available (- t) x else x) (events d)
  ∧ (Inventory.invariant d → Inventory.invariant (snd out)).
Proof.
  intros Hu He Ht Hsel Henough Huser Hfresh body out.
  assert (Hout : out
    = (Booking.BookingCreated (next_booking_id d) bookingReference (ev_price ev * t) t,
       add_available_tickets (- t) e
         (Database (users d) (events d)
            (bookings d ++ [Booking (next_booking_id d) u e t (ev_price ev * t) Pending
                                    bookingReference PayPending
                                    (now + reservation_window)])
            (payments d) (next_booking_id d + 1) (next_payment_id d)))).
  { unfold out, BookingV2.create_booking, body. simpl.
    assert (Hu' : (u =? 0) = false) by lia.
    assert (He' : (e =? 0) = false) by lia.
    assert (Ht' : (t =? 0) = false) by lia.
    rewrite Hu', He', Ht'. simpl. rewrite Hsel.
    assert (Hb : (ev_available_tickets ev <? t) = false) by lia. rewrite Hb.
    unfold insert_booking.
    assert (Hx1 : existsb (Z.eqb u) (users d) = true).
    { apply existsb_exists. exists u. split; [done | lia]. }
    assert (Hx2 : existsb (λ x, ev_id x =? e) (events d) = true).
    { apply existsb_exists. exists ev.
      destruct (filter_head_In _ _ _ _ Hsel) as [Hin Hcond].
      split; [done |]. apply andb_true_iff in Hcond. tauto. }
    assert (Hx3 : existsb (λ b, bool_decide (bk_booking_reference b = bookingReference))
                          (bookings d) = false).
    { apply not_true_is_false. intros Hex. apply existsb_exists in Hex.
      destruct Hex as (b & Hb' & Heq). apply bool_decide_eq_true in Heq.
      by apply (Hfresh b Hb'). }
    rewrite Hx1, Hx2, Hx3. done. }
  rewrite Hout. simpl. repeat split.
  intros Hinv.
  eapply (invariant_step d _ (λ x, if ev_id x =? e then add_available (- t) x else x));
    [reflexivity | | exact Hinv].
  intros x Hx. simpl. rewrite reserved_tickets_app. simpl.
  unfold Inventory.held_by. simpl. rewrite (Z.eqb_sym e (ev_id x)).
  destruct (ev_id x =? e) eqn:Hid; simpl; repeat split; lia.
Qed.

Lemma create_booking_v2_accepts_witness :
  fst (BookingV2.create_booking 0 "BK9" (Sample.body 8 1 (-3)) Sample.reserved)
    = Booking.BookingCreated 2 "BK9" (-15000) (-3)
  ∧ List.map ev_available_tickets
      (events (snd (BookingV2.create_booking 0 "BK9" (Sample.body 8 1 (-3))
                                             Sample.reserved)))
    = [3].
Proof.
  assert (H8 : (8 : Z) ≠ 0) by lia.
  assert (H1 : (1 : Z) ≠ 0) by lia.
  assert (Ht : (-3 : Z) ≠ 0) by lia.
  assert (Hsel : select_active_event 1 Sample.reserved
                 = [Event 1 (240 * Sample.hour) 2 0 5000 Active]) by reflexivity.
  assert (Hen : -3 ≤ ev_available_tickets (Event 1 (240 * Sample.hour) 2 0 5000 Active))
    by (simpl; lia).
  assert (Huser : In 8 (users Sample.reserved)) by (right; left; reflexivity).
  assert (Hfresh : ∀ b, In b (bookings Sample.reserved) → bk_booking_reference b ≠ "BK9").
  { intros b [<- | []]. discriminate. }
  destruct (create_booking_v2_accepts 0 "BK9" 8 1 (-3) Sample.reserved _ _
              H8 H1 Ht Hsel Hen Huser Hfresh) as (Hr & _ & Hev & _).
  split; [exact Hr |].
  change (Sample.body 8 1 (-3))
    with {| Booking.userId := Js.JNum 8; Booking.eventId := Js.JNum 1;
            Booking.ticketCount := Js.JNum (-3) |}.
  rewrite Hev. reflexivity.
Defined.
